(** * Session orchestration of the inbox-cleanup page (src/pages/Home.tsx)

    A shallow embedding of the stateful core of the [Home] component: the
    React state cells, the [localStorage] adapter, the activity recorder,
    the selection tracker and the four asynchronous handlers that talk to
    the agent gateway.

    Conventions of the embedding.
    - Every [useState] cell is a field of [State], under the name it has in
      the source.  [localStorage] is a separate [Storage] value; the pair is
      a [World].
    - An [async] handler is cut at its single [await]: the part before it is
      a [_begin] function, the part after it a [_resume] function.  A handler
      is a closure over the render in which it was created, so a [_resume]
      function receives BOTH the state captured at invocation (what the
      constants [activityLog], [selectedEmails], [chatInput] of the closure
      still hold) and the world as it is when the promise settles.  A setter
      called with a value overwrites the cell; a setter called with an
      updater [prev => ...] reads the current cell.
    - JavaScript numbers that count e-mails are [Z]; strings are
      [String.string], one character per code unit below 256.
    - [Date.now()] and [new Date().toISOString()] are read from a [Clock]
      value supplied by the environment, one reading per synchronous phase. *)

From Stdlib Require Import ZArith Bool Ascii String.
From stdpp Require Import base decidable list strings pretty gmap.

Local Open Scope string_scope.

(** ** Data model (interfaces of Home.tsx, lines 36-110) *)

Record CriteriaIdentified := {
  criteria_sender : option string;
  date_range : string;
  criteria_category : string;
  keywords : list string
}.

Record EmailPreview := {
  email_id : string;
  sender : string;
  subject : string;
  date : string;
  snippet : string;
  category : option string
}.

Record RandomAgentResponse := {
  action_taken : string;
  emails_found : Z;
  emails_deleted : Z;
  criteria_identified : CriteriaIdentified;
  (* declared [EmailPreview[]]; the handler guards against its absence *)
  email_preview : option (list EmailPreview);
  confirmation_required : bool;
  message : string
}.

Record CleanupSummary := {
  total_emails_processed : Z;
  total_emails_deleted : Z;
  rules_executed : Z;
  execution_time_seconds : Z
}.

Record PeriodicResponse := {
  cleanup_summary : CleanupSummary;
  next_scheduled_run : string;
  errors : list string
}.

Inductive Role := user | assistant.

Record ChatMessage := {
  msg_id : string;
  role : Role;
  content : string;
  msg_timestamp : string
}.

Inductive Status := success | error.

Record ActivityLog := {
  log_id : string;
  timestamp : string;
  action : string;
  emailsDeleted : Z;
  status : Status
}.

Inductive Frequency := daily | weekly | disabled.

Record CleanupSettings := {
  promotional : bool;
  oldEmails : bool;
  ageThreshold : Z;
  scheduleEnabled : bool;
  frequency : Frequency;
  scheduleTime : string;
  requireConfirmation : bool;
  maxEmailsPerRun : Z
}.

#[global] Instance Role_eq_dec : EqDecision Role.
Proof. solve_decision. Defined.
#[global] Instance Status_eq_dec : EqDecision Status.
Proof. solve_decision. Defined.
#[global] Instance Frequency_eq_dec : EqDecision Frequency.
Proof. solve_decision. Defined.

(** Agent IDs (lines 32-33). *)
Definition RANDOM_AGENT_ID : string := "69787126a75ef8a94cc4f0d1".
Definition PERIODIC_AGENT_ID : string := "697871441b6268d7b95195f6".

(** ** The gateway envelope *)

(** Modelled from the spec: the type [NormalizedAgentResponse] is imported
    from [@/utils/aiAgent], which is not part of the page.  Section 6 of the
    specification gives it as
    [{success: bool, error?: text, response: {status: text, message?: text,
    result?: AgentResult}}]; the payload type is the one the handler casts
    the result to. *)
Record Envelope (R : Type) := {
  env_success : bool;
  env_error : option string;
  response_status : string;
  response_message : option string;
  response_result : option R
}.
Arguments env_success {R} _.
Arguments env_error {R} _.
Arguments response_status {R} _.
Arguments response_message {R} _.
Arguments response_result {R} _.

(** What [await callAIAgent(..)] does: the promise rejects ([Threw]) or
    resolves with an envelope. *)
Inductive Outcome (R : Type) :=
| Threw
| Resolved (env : Envelope R).
Arguments Threw {R}.
Arguments Resolved {R} env.

Record Request := {
  instruction : string;
  agent : string
}.

Record Clock := {
  now_ms : Z;        (* Date.now() *)
  now_iso : string   (* new Date().toISOString() *)
}.

(** ** JavaScript helpers *)

(** [a || b] on an optional string: [undefined] and [''] are falsy. *)
Definition js_or (a : option string) (b : string) : string :=
  match a with
  | Some "" | None => b
  | Some s => s
  end.

(** Template-literal rendering of an integer and of a boolean. *)
Definition show_Z (z : Z) : string := pretty z.
Definition show_nat (n : nat) : string := pretty n.
Definition show_bool (b : bool) : string := if b then "true" else "false".

(** Characters [String.prototype.trim] strips, among code units below 256:
    TAB, LF, VT, FF, CR, SPACE and NBSP. *)
Definition is_white_space (a : Ascii.ascii) : bool :=
  let n := Ascii.nat_of_ascii a in
  ((9 <=? n) && (n <=? 13) || (n =? 32) || (n =? 160))%nat.

(** [!s.trim()]: the trimmed text is empty exactly when every character is
    white space. *)
Fixpoint trim_is_empty (s : string) : bool :=
  match s with
  | EmptyString => true
  | String a rest => is_white_space a && trim_is_empty rest
  end.

(** [ids.join(', ')]. *)
Fixpoint join (sep : string) (l : list string) : string :=
  match l with
  | [] => ""
  | [x] => x
  | x :: rest => x ++ sep ++ join sep rest
  end.

(** ** [Set<string>]: an insertion-ordered set without duplicates *)
Module JsSet.

Definition t := list string.

Definition empty : t := [].

Definition has (x : string) (s : t) : bool := bool_decide (x ∈ s).

Definition add (x : string) (s : t) : t :=
  if has x s then s else (s ++ [x])%list.

Definition delete (x : string) (s : t) : t :=
  List.filter (fun y => negb (String.eqb x y)) s.

Definition size (s : t) : nat := length s.

(** [new Set(iterable)]: elements are added left to right. *)
Definition of_list (l : list string) : t :=
  fold_left (fun acc x => add x acc) l empty.

(** [Array.from(set)]. *)
Definition to_list (s : t) : list string := s.

End JsSet.

(** ** JSON values and the text kept in [localStorage] *)

#[local] Set Warnings "-register-all".

Inductive Json :=
| JNull
| JBool (b : bool)
| JNum (z : Z)
| JStr (s : string)
| JArr (l : list Json)
| JObj (fields : list (string * Json)).

(** [JSON.stringify] and [JSON.parse] belong to the platform.  A stored text
    is kept up to what [JSON.parse] makes of it: either the parser throws a
    [SyntaxError] on it ([Malformed], which covers the empty text), or it is
    read back as a value [v] ([Stringified v], which is also what
    [JSON.stringify v] writes). *)
Inductive Text :=
| Malformed (raw : string)
| Stringified (v : Json).

(** [stored ? .. : ..]: a string is falsy only when it is empty. *)
Definition truthy (t : Text) : bool :=
  match t with
  | Malformed "" => false
  | _ => true
  end.

(** [JSON.parse(stored)]; [None] stands for the thrown [SyntaxError]. *)
Definition JSON_parse (t : Text) : option Json :=
  match t with
  | Malformed _ => None
  | Stringified v => Some v
  end.

Definition JSON_stringify (v : Json) : Text := Stringified v.

(** [localStorage]: the stored items, and whether reads and writes go
    through.  [setItem] throws when the quota is exceeded, both calls throw
    when storage is denied to the page; the handlers wrap every access in
    [try]/[catch] for that reason. *)
Record Storage := {
  items : gmap string Text;
  readable : bool;
  writable : bool
}.

(** [localStorage.getItem(k)]: [None] is a throw, [Some None] is [null]. *)
Definition getItem (k : string) (st : Storage) : option (option Text) :=
  if readable st then Some (items st !! k) else None.

(** [localStorage.setItem(k, v)]: [None] is a throw. *)
Definition setItem (k : string) (v : Text) (st : Storage) : option Storage :=
  if writable st
  then Some {| items := <[k := v]> (items st);
               readable := readable st; writable := writable st |}
  else None.

Definition ACTIVITY_KEY : string := "gmail_activity_log".
Definition SETTINGS_KEY : string := "gmail_cleanup_settings".

(** Object-property lookup on a parsed value. *)
Fixpoint assoc (k : string) (fields : list (string * Json)) : option Json :=
  match fields with
  | [] => None
  | (k', v) :: rest => if String.eqb k k' then Some v else assoc k rest
  end.

Definition show_Status (s : Status) : string :=
  match s with success => "success" | error => "error" end.

Definition show_Frequency (f : Frequency) : string :=
  match f with daily => "daily" | weekly => "weekly" | disabled => "disabled" end.

(** The object [JSON.stringify] sees for a log entry and for the settings. *)
Definition ActivityLog_to_json (e : ActivityLog) : Json :=
  JObj [("id", JStr (log_id e)); ("timestamp", JStr (timestamp e));
        ("action", JStr (action e)); ("emailsDeleted", JNum (emailsDeleted e));
        ("status", JStr (show_Status (status e)))].

Definition CleanupSettings_to_json (s : CleanupSettings) : Json :=
  JObj [("promotional", JBool (promotional s));
        ("oldEmails", JBool (oldEmails s));
        ("ageThreshold", JNum (ageThreshold s));
        ("scheduleEnabled", JBool (scheduleEnabled s));
        ("frequency", JStr (show_Frequency (frequency s)));
        ("scheduleTime", JStr (scheduleTime s));
        ("requireConfirmation", JBool (requireConfirmation s));
        ("maxEmailsPerRun", JNum (maxEmailsPerRun s))].

(** ** PersistenceAdapter (lines 124-169) *)

(** [loadActivityLog]: the value is whatever the stored text parses to. *)
Definition loadActivityLog (st : Storage) : Json :=
  match getItem ACTIVITY_KEY st with
  | Some (Some stored) =>
      if truthy stored
      then match JSON_parse stored with
           | Some v => v
           | None => JArr []          (* catch *)
           end
      else JArr []
  | Some None => JArr []
  | None => JArr []                   (* catch *)
  end.

(** [saveActivityLog]: a failed write is logged to the console and dropped. *)
Definition saveActivityLog (logs : list ActivityLog) (st : Storage) : Storage :=
  match setItem ACTIVITY_KEY (JSON_stringify (JArr (map ActivityLog_to_json logs))) st with
  | Some st' => st'
  | None => st
  end.

(** The literal that both branches of [loadSettings] return. *)
Definition defaultSettings : CleanupSettings :=
  {| promotional := true;
     oldEmails := true;
     ageThreshold := 30;
     scheduleEnabled := false;
     frequency := weekly;
     scheduleTime := "09:00";
     requireConfirmation := true;
     maxEmailsPerRun := 100 |}.

(** [loadSettings]: declared to return [CleanupSettings]; at run time the
    value is the parsed text, unchecked. *)
Definition loadSettings (st : Storage) : Json :=
  match getItem SETTINGS_KEY st with
  | Some (Some stored) =>
      if truthy stored
      then match JSON_parse stored with
           | Some v => v
           | None => CleanupSettings_to_json defaultSettings   (* catch *)
           end
      else CleanupSettings_to_json defaultSettings
  | Some None => CleanupSettings_to_json defaultSettings
  | None => CleanupSettings_to_json defaultSettings            (* catch *)
  end.

(** ** The state cells of [Home] (lines 331-346) *)

Record State := {
  activeTab : string;
  activityLog : list ActivityLog;
  settings : CleanupSettings;
  chatMessages : list ChatMessage;
  chatInput : string;
  chatLoading : bool;
  emailPreviews : list EmailPreview;
  selectedEmails : JsSet.t;
  chatError : option string;
  periodicLoading : bool;
  periodicError : option string;
  settingsSaved : bool
}.

Definition setActiveTab (v : string) (s : State) : State :=
  {| activeTab := v; activityLog := activityLog s; settings := settings s;
     chatMessages := chatMessages s; chatInput := chatInput s;
     chatLoading := chatLoading s; emailPreviews := emailPreviews s;
     selectedEmails := selectedEmails s; chatError := chatError s;
     periodicLoading := periodicLoading s; periodicError := periodicError s;
     settingsSaved := settingsSaved s |}.

Definition setActivityLog (v : list ActivityLog) (s : State) : State :=
  {| activeTab := activeTab s; activityLog := v; settings := settings s;
     chatMessages := chatMessages s; chatInput := chatInput s;
     chatLoading := chatLoading s; emailPreviews := emailPreviews s;
     selectedEmails := selectedEmails s; chatError := chatError s;
     periodicLoading := periodicLoading s; periodicError := periodicError s;
     settingsSaved := settingsSaved s |}.

Definition setSettings (v : CleanupSettings) (s : State) : State :=
  {| activeTab := activeTab s; activityLog := activityLog s; settings := v;
     chatMessages := chatMessages s; chatInput := chatInput s;
     chatLoading := chatLoading s; emailPreviews := emailPreviews s;
     selectedEmails := selectedEmails s; chatError := chatError s;
     periodicLoading := periodicLoading s; periodicError := periodicError s;
     settingsSaved := settingsSaved s |}.

Definition setChatMessages (v : list ChatMessage) (s : State) : State :=
  {| activeTab := activeTab s; activityLog := activityLog s; settings := settings s;
     chatMessages := v; chatInput := chatInput s;
     chatLoading := chatLoading s; emailPreviews := emailPreviews s;
     selectedEmails := selectedEmails s; chatError := chatError s;
     periodicLoading := periodicLoading s; periodicError := periodicError s;
     settingsSaved := settingsSaved s |}.

Definition setChatInput (v : string) (s : State) : State :=
  {| activeTab := activeTab s; activityLog := activityLog s; settings := settings s;
     chatMessages := chatMessages s; chatInput := v;
     chatLoading := chatLoading s; emailPreviews := emailPreviews s;
     selectedEmails := selectedEmails s; chatError := chatError s;
     periodicLoading := periodicLoading s; periodicError := periodicError s;
     settingsSaved := settingsSaved s |}.

Definition setChatLoading (v : bool) (s : State) : State :=
  {| activeTab := activeTab s; activityLog := activityLog s; settings := settings s;
     chatMessages := chatMessages s; chatInput := chatInput s;
     chatLoading := v; emailPreviews := emailPreviews s;
     selectedEmails := selectedEmails s; chatError := chatError s;
     periodicLoading := periodicLoading s; periodicError := periodicError s;
     settingsSaved := settingsSaved s |}.

Definition setEmailPreviews (v : list EmailPreview) (s : State) : State :=
  {| activeTab := activeTab s; activityLog := activityLog s; settings := settings s;
     chatMessages := chatMessages s; chatInput := chatInput s;
     chatLoading := chatLoading s; emailPreviews := v;
     selectedEmails := selectedEmails s; chatError := chatError s;
     periodicLoading := periodicLoading s; periodicError := periodicError s;
     settingsSaved := settingsSaved s |}.

Definition setSelectedEmails (v : JsSet.t) (s : State) : State :=
  {| activeTab := activeTab s; activityLog := activityLog s; settings := settings s;
     chatMessages := chatMessages s; chatInput := chatInput s;
     chatLoading := chatLoading s; emailPreviews := emailPreviews s;
     selectedEmails := v; chatError := chatError s;
     periodicLoading := periodicLoading s; periodicError := periodicError s;
     settingsSaved := settingsSaved s |}.

Definition setChatError (v : option string) (s : State) : State :=
  {| activeTab := activeTab s; activityLog := activityLog s; settings := settings s;
     chatMessages := chatMessages s; chatInput := chatInput s;
     chatLoading := chatLoading s; emailPreviews := emailPreviews s;
     selectedEmails := selectedEmails s; chatError := v;
     periodicLoading := periodicLoading s; periodicError := periodicError s;
     settingsSaved := settingsSaved s |}.

Definition setPeriodicLoading (v : bool) (s : State) : State :=
  {| activeTab := activeTab s; activityLog := activityLog s; settings := settings s;
     chatMessages := chatMessages s; chatInput := chatInput s;
     chatLoading := chatLoading s; emailPreviews := emailPreviews s;
     selectedEmails := selectedEmails s; chatError := chatError s;
     periodicLoading := v; periodicError := periodicError s;
     settingsSaved := settingsSaved s |}.

Definition setPeriodicError (v : option string) (s : State) : State :=
  {| activeTab := activeTab s; activityLog := activityLog s; settings := settings s;
     chatMessages := chatMessages s; chatInput := chatInput s;
     chatLoading := chatLoading s; emailPreviews := emailPreviews s;
     selectedEmails := selectedEmails s; chatError := chatError s;
     periodicLoading := periodicLoading s; periodicError := v;
     settingsSaved := settingsSaved s |}.

Definition setSettingsSaved (v : bool) (s : State) : State :=
  {| activeTab := activeTab s; activityLog := activityLog s; settings := settings s;
     chatMessages := chatMessages s; chatInput := chatInput s;
     chatLoading := chatLoading s; emailPreviews := emailPreviews s;
     selectedEmails := selectedEmails s; chatError := chatError s;
     periodicLoading := periodicLoading s; periodicError := periodicError s;
     settingsSaved := v |}.

(** The component state together with the durable store. *)
Record World := {
  ui : State;
  storage : Storage
}.

(** Apply a state setter inside a world. *)
Definition render (f : State -> State) (w : World) : World :=
  {| ui := f (ui w); storage := storage w |}.

(** The state of the first render (the [useState] initialisers), given the
    settings the initialiser obtained. *)
Definition initialState (loaded : CleanupSettings) : State :=
  {| activeTab := "dashboard"; activityLog := []; settings := loaded;
     chatMessages := []; chatInput := ""; chatLoading := false;
     emailPreviews := []; selectedEmails := JsSet.empty; chatError := None;
     periodicLoading := false; periodicError := None; settingsSaved := false |}.

(** ** SettingsStore: [saveSettings] (lines 353-362)

    The timer that clears [settingsSaved] three seconds later is the
    separate step [settingsSaved_timeout]. *)
Definition saveSettings (w : World) : World :=
  match setItem SETTINGS_KEY (JSON_stringify (CleanupSettings_to_json (settings (ui w)))) (storage w) with
  | Some st' => {| ui := setSettingsSaved true (ui w); storage := st' |}
  | None => w                                                   (* catch *)
  end.

Definition settingsSaved_timeout (w : World) : World :=
  render (setSettingsSaved false) w.

(** ** ActivityRecorder: [addActivityLog] (lines 364-376)

    [c] is the render the enclosing closure belongs to: [activityLog] in the
    body is the constant of that render. *)
Definition newLog (clk : Clock) (act : string) (n : Z) (st : Status) : ActivityLog :=
  {| log_id := show_Z (now_ms clk);
     timestamp := now_iso clk;
     action := act;
     emailsDeleted := n;
     status := st |}.

Definition updatedLogs (c : State) (clk : Clock) (act : string) (n : Z) (st : Status)
  : list ActivityLog :=
  take 50 (newLog clk act n st :: activityLog c).

Definition addActivityLog (c : State) (clk : Clock) (act : string) (n : Z) (st : Status)
    (w : World) : World :=
  {| ui := setActivityLog (updatedLogs c clk act n st) (ui w);
     storage := saveActivityLog (updatedLogs c clk act n st) (storage w) |}.

(** ** ChatOrchestrator *)

(** [result.success && result.response.status === 'success']. *)
Definition is_success {R} (env : Envelope R) : bool :=
  env_success env && String.eqb (response_status env) "success".

Definition NETWORK_ERROR : string := "Network error. Please try again.".

Definition appendMessage (m : ChatMessage) (s : State) : State :=
  setChatMessages (chatMessages s ++ [m])%list s.

Definition assistantMessage (clk : Clock) (text : string) : ChatMessage :=
  {| msg_id := show_Z (now_ms clk + 1); role := assistant;
     content := text; msg_timestamp := now_iso clk |}.

(** *** [sendChatMessage] (lines 379-451), up to the [await]. *)
Definition sendChatMessage_begin (clk : Clock) (s : State) : State * option Request :=
  if trim_is_empty (chatInput s) || chatLoading s then (s, None)
  else
    let userMessage :=
      {| msg_id := show_Z (now_ms clk); role := user;
         content := chatInput s; msg_timestamp := now_iso clk |} in
    (setChatError None
       (setChatLoading true
          (setChatInput "" (appendMessage userMessage s))),
     Some {| instruction := chatInput s; agent := RANDOM_AGENT_ID |}).

(** The [catch] block of [sendChatMessage]. *)
Definition sendChatMessage_catch (clk : Clock) (w : World) : World :=
  render (appendMessage (assistantMessage clk NETWORK_ERROR))
    (render (setChatError (Some NETWORK_ERROR)) w).

(** *** [sendChatMessage] after the [await]: [try] body, [catch], [finally].
    A result absent from a successful envelope makes [data.message] throw a
    [TypeError] before any setter has run, which lands in [catch]. *)
Definition sendChatMessage_resume (c : State) (o : Outcome RandomAgentResponse)
    (clk : Clock) (w : World) : World :=
  let settled :=
    match o with
    | Resolved env =>
        if is_success env then
          match response_result env with
          | Some data =>
              let w1 := render (appendMessage (assistantMessage clk (message data))) w in
              let w2 :=
                match email_preview data with
                | Some (p :: ps) =>
                    render (setSelectedEmails JsSet.empty)
                      (render (setEmailPreviews (p :: ps)) w1)
                | _ => render (setEmailPreviews []) w1
                end in
              if (0 <? emails_deleted data)%Z
              then addActivityLog c clk
                     ("Chat cleanup: " ++
                      js_or (Some (criteria_category (criteria_identified data))) "emails")
                     (emails_deleted data) success w2
              else w2
          | None => sendChatMessage_catch clk w
          end
        else
          let errorMsg :=
            js_or (env_error env)
              (js_or (response_message env) "Failed to process request") in
          render (appendMessage (assistantMessage clk errorMsg))
            (render (setChatError (Some errorMsg)) w)
    | Threw => sendChatMessage_catch clk w
    end in
  render (setChatLoading false) settled.

(** *** [deleteSelectedEmails] (lines 454-496), up to the [await]. *)
Definition deleteSelectedEmails_begin (s : State) : State * option Request :=
  if (JsSet.size (selectedEmails s) =? 0)%nat then (s, None)
  else
    (setChatError None (setChatLoading true s),
     Some {| instruction :=
               "Delete these specific emails: " ++
               join ", " (JsSet.to_list (selectedEmails s));
             agent := RANDOM_AGENT_ID |}).

(** *** [deleteSelectedEmails] after the [await].  [selectedEmails] is the
    constant of the invoking render; the previews are filtered through an
    updater and so start from the current batch. *)
Definition deleteSelectedEmails_resume (c : State) (o : Outcome RandomAgentResponse)
    (clk : Clock) (w : World) : World :=
  let settled :=
    match o with
    | Resolved env =>
        if is_success env then
          match response_result env with
          | Some data =>
              let w1 :=
                addActivityLog c clk
                  ("Deleted " ++ show_nat (JsSet.size (selectedEmails c)) ++
                   " selected emails")
                  (emails_deleted data) success w in
              let w2 :=
                render (fun s =>
                  setEmailPreviews
                    (List.filter
                       (fun e => negb (JsSet.has (email_id e) (selectedEmails c)))
                       (emailPreviews s)) s) w1 in
              let w3 := render (setSelectedEmails JsSet.empty) w2 in
              let confirmMessage :=
                {| msg_id := show_Z (now_ms clk); role := assistant;
                   content := "Successfully deleted " ++
                              show_Z (emails_deleted data) ++ " emails.";
                   msg_timestamp := now_iso clk |} in
              render (appendMessage confirmMessage) w3
          | None => render (setChatError (Some NETWORK_ERROR)) w   (* TypeError, catch *)
          end
        else
          render (setChatError (Some (js_or (env_error env) "Failed to delete emails"))) w
    | Threw => render (setChatError (Some NETWORK_ERROR)) w
    end in
  render (setChatLoading false) settled.

(** ** SelectionTracker *)

(** [toggleEmailSelection] (lines 499-509): an updater on the current set. *)
Definition toggle (emailId : string) (prev : JsSet.t) : JsSet.t :=
  if JsSet.has emailId prev then JsSet.delete emailId prev
  else JsSet.add emailId prev.

Definition toggleEmailSelection (emailId : string) (s : State) : State :=
  setSelectedEmails (toggle emailId (selectedEmails s)) s.

(** [selectAllEmails] (lines 512-518). *)
Definition selectAllEmails (s : State) : State :=
  if (JsSet.size (selectedEmails s) =? length (emailPreviews s))%nat
  then setSelectedEmails JsSet.empty s
  else setSelectedEmails (JsSet.of_list (map email_id (emailPreviews s))) s.

(** ** PeriodicRunner *)

Definition settingsText (s : CleanupSettings) : string :=
  "promotional=" ++ show_bool (promotional s) ++
  ", old_emails=" ++ show_bool (oldEmails s) ++
  ", age_threshold=" ++ show_Z (ageThreshold s) ++ " days".

(** *** [runCleanupNow] (lines 521-551), up to the [await]. *)
Definition runCleanupNow_begin (s : State) : State * option Request :=
  (setPeriodicError None (setPeriodicLoading true s),
   Some {| instruction := "Run cleanup with settings: " ++ settingsText (settings s);
           agent := PERIODIC_AGENT_ID |}).

Definition runCleanupNow_failed (c : State) (clk : Clock) (msg : string)
    (w : World) : World :=
  addActivityLog c clk "Scheduled cleanup failed" 0 error
    (render (setPeriodicError (Some msg)) w).

(** *** [runCleanupNow] after the [await]. *)
Definition runCleanupNow_resume (c : State) (o : Outcome PeriodicResponse)
    (clk : Clock) (w : World) : World :=
  let settled :=
    match o with
    | Resolved env =>
        if is_success env then
          match response_result env with
          | Some data =>
              render (setActiveTab "dashboard")
                (addActivityLog c clk "Scheduled cleanup executed"
                   (total_emails_deleted (cleanup_summary data)) success w)
          | None => runCleanupNow_failed c clk NETWORK_ERROR w     (* TypeError, catch *)
          end
        else runCleanupNow_failed c clk (js_or (env_error env) "Cleanup failed") w
    | Threw => runCleanupNow_failed c clk NETWORK_ERROR w
    end in
  render (setPeriodicLoading false) settled.

(** *** [testRunCleanup] (lines 554-580), up to the [await]. *)
Definition testRunCleanup_begin (s : State) : State * option Request :=
  (setPeriodicError None (setPeriodicLoading true s),
   Some {| instruction :=
             "Test cleanup (dry run) with settings: " ++ settingsText (settings s) ++
             ". Do not delete, just show what would be deleted.";
           agent := PERIODIC_AGENT_ID |}).

(** *** [testRunCleanup] after the [await]. *)
Definition testRunCleanup_resume (c : State) (o : Outcome PeriodicResponse)
    (clk : Clock) (w : World) : World :=
  let settled :=
    match o with
    | Resolved env =>
        if is_success env then
          match response_result env with
          | Some data =>
              addActivityLog c clk
                ("Test run: would delete " ++
                 show_Z (total_emails_processed (cleanup_summary data)) ++ " emails")
                0 success w
          | None => render (setPeriodicError (Some NETWORK_ERROR)) w   (* TypeError, catch *)
          end
        else render (setPeriodicError (Some (js_or (env_error env) "Test run failed"))) w
    | Threw => render (setPeriodicError (Some NETWORK_ERROR)) w
    end in
  render (setPeriodicLoading false) settled.

(** ** Whole invocations

    An invocation that nothing interleaves with: the handler is called on the
    current render, the promise settles with [o], and the continuation runs
    on the state the synchronous part left behind.  [clk1] is the clock at the
    call, [clk2] the clock when the promise settles. *)
Definition submit (clk1 : Clock) (o : Outcome RandomAgentResponse) (clk2 : Clock)
    (w : World) : World :=
  match sendChatMessage_begin clk1 (ui w) with
  | (s1, Some _) => sendChatMessage_resume (ui w) o clk2 {| ui := s1; storage := storage w |}
  | (s1, None) => {| ui := s1; storage := storage w |}
  end.

Definition deleteSelected (o : Outcome RandomAgentResponse) (clk2 : Clock)
    (w : World) : World :=
  match deleteSelectedEmails_begin (ui w) with
  | (s1, Some _) => deleteSelectedEmails_resume (ui w) o clk2 {| ui := s1; storage := storage w |}
  | (s1, None) => {| ui := s1; storage := storage w |}
  end.

Definition runNow (o : Outcome PeriodicResponse) (clk2 : Clock) (w : World) : World :=
  match runCleanupNow_begin (ui w) with
  | (s1, Some _) => runCleanupNow_resume (ui w) o clk2 {| ui := s1; storage := storage w |}
  | (s1, None) => {| ui := s1; storage := storage w |}
  end.

Definition testRun (o : Outcome PeriodicResponse) (clk2 : Clock) (w : World) : World :=
  match testRunCleanup_begin (ui w) with
  | (s1, Some _) => testRunCleanup_resume (ui w) o clk2 {| ui := s1; storage := storage w |}
  | (s1, None) => {| ui := s1; storage := storage w |}
  end.

(** ** The controls that call the handlers (JSX, lines 638-657, 738-760,
    778-801, 997-1009) *)

Inductive Handler := Send | Delete | RunNow | TestRun.

Inductive Control :=
| SendButton        (* onClick={sendChatMessage} *)
| ChatInputEnter    (* onKeyDown: Enter without Shift calls sendChatMessage *)
| DeleteButton      (* onClick={deleteSelectedEmails} *)
| RunNowButton      (* onClick={runCleanupNow} *)
| TestRunButton.    (* onClick={testRunCleanup} *)

Definition handler_of (ctl : Control) : Handler :=
  match ctl with
  | SendButton | ChatInputEnter => Send
  | DeleteButton => Delete
  | RunNowButton => RunNow
  | TestRunButton => TestRun
  end.


(** Calling the handler itself, up to its [await]. *)
Definition invoke (h : Handler) (clk : Clock) (s : State) : State * option Request :=
  match h with
  | Send => sendChatMessage_begin clk s
  | Delete => deleteSelectedEmails_begin s
  | RunNow => runCleanupNow_begin s
  | TestRun => testRunCleanup_begin s
  end.

(** The [disabled] attribute of each control; the delete button is rendered
    only under [emailPreviews.length > 0]. *)
Definition control_disabled (ctl : Control) (s : State) : bool :=
  match ctl with
  | SendButton => chatLoading s || trim_is_empty (chatInput s)
  | ChatInputEnter => chatLoading s
  | DeleteButton =>
      (length (emailPreviews s) =? 0)%nat ||
      ((JsSet.size (selectedEmails s) =? 0)%nat || chatLoading s)
  | RunNowButton => periodicLoading s
  | TestRunButton => periodicLoading s
  end.

(** A user gesture on a control: a disabled control fires no handler. *)
Definition press (ctl : Control) (clk : Clock) (s : State) : State * option Request :=
  if control_disabled ctl s then (s, None) else invoke (handler_of ctl) clk s.

(** ** The page as a transition system

    A request in flight is the continuation of its handler: the kind of
    handler and the render it closed over. *)
Inductive Pending :=
| AwaitSend (c : State)
| AwaitDelete (c : State)
| AwaitRunNow (c : State)
| AwaitTestRun (c : State).

Definition awaiting (h : Handler) (c : State) : Pending :=
  match h with
  | Send => AwaitSend c
  | Delete => AwaitDelete c
  | RunNow => AwaitRunNow c
  | TestRun => AwaitTestRun c
  end.



Record Session := {
  world : World;
  inflight : list Pending
}.

Inductive Event :=
| Gesture (ctl : Control) (clk : Clock)
| Typing (text : string)            (* onChange of the input, suggestion chips *)
| CardClick (i : nat)               (* the i-th rendered preview card *)
| SelectAllClick
| SaveClick
| SavedTimer
| SettingsEdit (s : CleanupSettings)
| TabChange (tab : string)
| ChatSettles (n : nat) (o : Outcome RandomAgentResponse) (clk : Clock)
| PeriodicSettles (n : nat) (o : Outcome PeriodicResponse) (clk : Clock).

Definition on_ui (f : State -> State) (x : Session) : Session :=
  {| world := render f (world x); inflight := inflight x |}.

(** One event of the page.  A settle event names the request that settles by
    its position among those in flight; it does nothing when there is no
    request of its kind at that position.  Which tab is shown is not taken
    into account: every control is reachable in every state, which only adds
    behaviours. *)
Definition step (x : Session) (e : Event) : Session :=
  let w := world x in
  match e with
  | Gesture ctl clk =>
      match press ctl clk (ui w) with
      | (s1, Some _) =>
          {| world := {| ui := s1; storage := storage w |};
             inflight := (inflight x ++ [awaiting (handler_of ctl) (ui w)])%list |}
      | (s1, None) =>
          {| world := {| ui := s1; storage := storage w |}; inflight := inflight x |}
      end
  | Typing text => on_ui (setChatInput text) x
  | CardClick i =>
      match emailPreviews (ui w) !! i with
      | Some p => on_ui (toggleEmailSelection (email_id p)) x
      | None => x
      end
  | SelectAllClick =>
      if (length (emailPreviews (ui w)) =? 0)%nat then x else on_ui selectAllEmails x
  | SaveClick => {| world := saveSettings w; inflight := inflight x |}
  | SavedTimer => {| world := settingsSaved_timeout w; inflight := inflight x |}
  | SettingsEdit s => on_ui (setSettings s) x
  | TabChange tab => on_ui (setActiveTab tab) x
  | ChatSettles n o clk =>
      match inflight x !! n with
      | Some (AwaitSend c) =>
          {| world := sendChatMessage_resume c o clk w; inflight := delete n (inflight x) |}
      | Some (AwaitDelete c) =>
          {| world := deleteSelectedEmails_resume c o clk w;
             inflight := delete n (inflight x) |}
      | _ => x
      end
  | PeriodicSettles n o clk =>
      match inflight x !! n with
      | Some (AwaitRunNow c) =>
          {| world := runCleanupNow_resume c o clk w; inflight := delete n (inflight x) |}
      | Some (AwaitTestRun c) =>
          {| world := testRunCleanup_resume c o clk w; inflight := delete n (inflight x) |}
      | _ => x
      end
  end.

Definition run (events : list Event) (x : Session) : Session := fold_left step events x.

(** The page once mounted: the state of the first render with the effect of
    lines 349-351 applied, [setActivityLog(loadActivityLog())].  The loader
    is declared to return [ActivityLog[]]; the entries it returned are
    passed as [stored], as the settings the initialiser obtained are passed
    as [loaded]. *)
Definition start (loaded : CleanupSettings) (stored : list ActivityLog) (st : Storage)
  : Session :=
  {| world := {| ui := setActivityLog stored (initialState loaded); storage := st |};
     inflight := [] |}.



(** ** Specification-side notions *)

(** The ids of the current preview batch. *)
Definition preview_ids (s : State) : list string := map email_id (emailPreviews s).

(** Section 3, SelectionSet: every selected id belongs to the batch. *)
Definition selection_within_batch (s : State) : Prop :=
  forall x, x ∈ selectedEmails s -> x ∈ preview_ids s.

(** Section 3, Settings: the admissible values of each field. *)
Definition is_digit (a : Ascii.ascii) : bool :=
  let n := Ascii.nat_of_ascii a in ((48 <=? n) && (n <=? 57))%nat.

Definition digit_value (a : Ascii.ascii) : nat := Ascii.nat_of_ascii a - 48.

Definition is_HH_MM (t : string) : bool :=
  match t with
  | String h1 (String h2 (String ":"%char (String m1 (String m2 EmptyString)))) =>
      is_digit h1 && is_digit h2 && is_digit m1 && is_digit m2 &&
      (10 * digit_value h1 + digit_value h2 <? 24)%nat &&
      (10 * digit_value m1 + digit_value m2 <? 60)%nat
  | _ => false
  end.

Definition valid_settings (s : CleanupSettings) : bool :=
  bool_decide (ageThreshold s ∈ [7; 14; 30; 60; 90]%Z) &&
  is_HH_MM (scheduleTime s) &&
  bool_decide (maxEmailsPerRun s ∈ [50; 100; 200; 500]%Z).

Definition get_bool (k : string) (f : list (string * Json)) : option bool :=
  match assoc k f with Some (JBool b) => Some b | _ => None end.

Definition get_num (k : string) (f : list (string * Json)) : option Z :=
  match assoc k f with Some (JNum z) => Some z | _ => None end.

Definition get_str (k : string) (f : list (string * Json)) : option string :=
  match assoc k f with Some (JStr s) => Some s | _ => None end.

Definition read_Frequency (t : string) : option Frequency :=
  if String.eqb t "daily" then Some daily
  else if String.eqb t "weekly" then Some weekly
  else if String.eqb t "disabled" then Some disabled
  else None.

(** A run-time value read as a Settings record: [Some s] exactly when every
    field of the type is present, of its type and admissible. *)
Definition as_settings (v : Json) : option CleanupSettings :=
  match v with
  | JObj f =>
      a ← get_bool "promotional" f;
      b ← get_bool "oldEmails" f;
      c ← get_num "ageThreshold" f;
      d ← get_bool "scheduleEnabled" f;
      e ← get_str "frequency" f ≫= read_Frequency;
      t ← get_str "scheduleTime" f;
      g ← get_bool "requireConfirmation" f;
      h ← get_num "maxEmailsPerRun" f;
      let s := {| promotional := a; oldEmails := b; ageThreshold := c;
                  scheduleEnabled := d; frequency := e; scheduleTime := t;
                  requireConfirmation := g; maxEmailsPerRun := h |} in
      if valid_settings s then Some s else None
  | _ => None
  end.

(** A sequence of activity records, each appended by a handler of the
    render that is current when it runs. *)
Record Append := {
  append_clock : Clock;
  append_action : string;
  append_count : Z;
  append_status : Status
}.

Definition entry_of (a : Append) : ActivityLog :=
  newLog (append_clock a) (append_action a) (append_count a) (append_status a).

Definition record_entry (w : World) (a : Append) : World :=
  addActivityLog (ui w) (append_clock a) (append_action a) (append_count a)
    (append_status a) w.

Definition record_entries (l : list Append) (w : World) : World := fold_left record_entry l w.

(** What the store holds under the activity key. *)
Definition persisted_log (st : Storage) : option Text := items st !! ACTIVITY_KEY.

(** The number of toggles of [x] in a sequence of calls. *)
Definition toggles_of (x : string) (calls : list string) : nat :=
  length (List.filter (String.eqb x) calls).

Definition toggle_all (calls : list string) (s : State) : State :=
  fold_left (fun st emailId => toggleEmailSelection emailId st) calls s.

(** The payload of a reply that a handler takes down its success path:
    envelope success, inner status success and a result present.  Every other
    outcome (rejected call, failure envelope, missing result) is a failure. *)
Definition accepted {R} (o : Outcome R) : option R :=
  match o with
  | Resolved env => if is_success env then response_result env else None
  | Threw => None
  end.

(** The text a failed submit shows. *)
Definition submit_error_text (o : Outcome RandomAgentResponse) : string :=
  match o with
  | Resolved env =>
      if is_success env then NETWORK_ERROR
      else js_or (env_error env) (js_or (response_message env) "Failed to process request")
  | Threw => NETWORK_ERROR
  end.

(** A reply to a submit that empties the preview batch: accepted, with the
    preview list absent or empty. *)
Definition clears_batch (o : Outcome RandomAgentResponse) : bool :=
  match accepted o with
  | Some data =>
      match email_preview data with
      | Some (_ :: _) => false
      | _ => true
      end
  | None => false
  end.

(** ** Concrete sessions used to evaluate the handlers *)
Module Scenario.

Definition t0 : Clock :=
  {| now_ms := 1700000000000; now_iso := "2023-11-14T22:13:20.000Z" |}.
Definition t1 : Clock :=
  {| now_ms := 1700000002500; now_iso := "2023-11-14T22:13:22.500Z" |}.
Definition t2 : Clock :=
  {| now_ms := 1700000004000; now_iso := "2023-11-14T22:13:24.000Z" |}.

Definition mail (id : string) : EmailPreview :=
  {| email_id := id; sender := "Shop News"; subject := "Weekend sale";
     date := "2023-11-01T08:00:00Z"; snippet := "Everything must go";
     category := Some "promotions" |}.

Definition empty_store : Storage :=
  {| items := ∅; readable := true; writable := true |}.

(** A store whose quota is exhausted: [setItem] throws. *)
Definition full_store : Storage :=
  {| items := ∅; readable := true; writable := false |}.

Definition idle : State := initialState defaultSettings.

(** Two previews on display, the first one selected, a query typed in. *)
Definition browsing : State :=
  setChatInput "Show promotional emails"
    (setSelectedEmails ["m1"]
       (setEmailPreviews [mail "m1"; mail "m2"] idle)).

Definition criteria : CriteriaIdentified :=
  {| criteria_sender := None; date_range := "all"; criteria_category := "promotions";
     keywords := [] |}.

Definition answer (previews : list EmailPreview) (deleted : Z) : Envelope RandomAgentResponse :=
  {| env_success := true; env_error := None; response_status := "success";
     response_message := None;
     response_result :=
       Some {| action_taken := "search"; emails_found := Z.of_nat (length previews);
               emails_deleted := deleted; criteria_identified := criteria;
               email_preview := Some previews; confirmation_required := false;
               message := "Done." |} |}.

Definition report (processed deleted : Z) : Envelope PeriodicResponse :=
  {| env_success := true; env_error := None; response_status := "success";
     response_message := None;
     response_result :=
       Some {| cleanup_summary :=
                 {| total_emails_processed := processed; total_emails_deleted := deleted;
                    rules_executed := 2; execution_time_seconds := 3 |};
               next_scheduled_run := "2023-11-21T09:00:00Z"; errors := [] |} |}.

(** Five previews on display, three of them selected. *)
Definition three_of_five : State :=
  setSelectedEmails ["m1"; "m3"; "m5"]
    (setEmailPreviews [mail "m1"; mail "m2"; mail "m3"; mail "m4"; mail "m5"] idle).

End Scenario.

(** ** More of the page: text helpers, the dashboard, the preview card *)

(** [String.prototype.trim], for the white space of [is_white_space]:
    leading characters are dropped first, then trailing ones. *)
Fixpoint trimStart (s : string) : string :=
  match s with
  | EmptyString => EmptyString
  | String a rest => if is_white_space a then trimStart rest else s
  end.

Fixpoint trimEnd (s : string) : string :=
  match s with
  | EmptyString => EmptyString
  | String a rest =>
      match trimEnd rest with
      | EmptyString => if is_white_space a then EmptyString else String a EmptyString
      | kept => String a kept
      end
  end.

Definition trim (s : string) : string := trimEnd (trimStart s).

(** [String.prototype.toLowerCase] on code units below 256: A-Z and the
    upper-case letters of Latin-1 (C0-DE without the multiplication sign)
    move up by 32; everything else stays. *)
Definition lower_char (a : Ascii.ascii) : Ascii.ascii :=
  let n := Ascii.nat_of_ascii a in
  if ((65 <=? n) && (n <=? 90) ||
      (192 <=? n) && (n <=? 222) && negb (n =? 215))%nat
  then Ascii.ascii_of_nat (n + 32)
  else a.

Fixpoint toLowerCase (s : string) : string :=
  match s with
  | EmptyString => EmptyString
  | String a rest => String (lower_char a) (toLowerCase rest)
  end.

(** [hay.includes(needle)]. *)
Fixpoint includes (needle hay : string) : bool :=
  String.prefix needle hay ||
  match hay with
  | EmptyString => false
  | String _ rest => includes needle rest
  end.

Definition GRAY : string := "bg-gray-100 text-gray-800".
Definition PURPLE : string := "bg-purple-100 text-purple-800".
Definition BLUE : string := "bg-blue-100 text-blue-800".
Definition GREEN : string := "bg-green-100 text-green-800".

(** [getCategoryColor] of [EmailPreviewCard] (lines 291-298). *)
Definition getCategoryColor (category : option string) : string :=
  match category with
  | None | Some "" => GRAY
  | Some c =>
      let cat := toLowerCase c in
      if includes "promo" cat then PURPLE
      else if includes "social" cat then BLUE
      else if includes "update" cat then GREEN
      else GRAY
  end.

(** [s.split(' ')]: the pieces between the spaces, never an empty array. *)
Fixpoint split_spaces (s : string) : list string :=
  match s with
  | EmptyString => [EmptyString]
  | String a rest =>
      if Ascii.eqb a " "
      then EmptyString :: split_spaces rest
      else match split_spaces rest with
           | w :: ws => String a w :: ws
           | [] => [String a EmptyString]
           end
  end.

(** [`${w[0]}`]: the first code unit, or the text of [undefined]. *)
Definition first_char_text (w : string) : string :=
  match w with
  | EmptyString => "undefined"
  | String a _ => String a EmptyString
  end.

(** [sender.substring(0, 2)]. *)
Definition substring_0_2 (s : string) : string :=
  match s with
  | String a (String b _) => String a (String b EmptyString)
  | _ => s
  end.

(** [String.prototype.toUpperCase] on text whose characters are all ASCII:
    a-z move down by 32, everything else stays. *)
Definition upper_ascii_char (a : Ascii.ascii) : Ascii.ascii :=
  let n := Ascii.nat_of_ascii a in
  if ((97 <=? n) && (n <=? 122))%nat then Ascii.ascii_of_nat (n - 32) else a.

Fixpoint toUpperCase_ascii (s : string) : string :=
  match s with
  | EmptyString => EmptyString
  | String a rest => String (upper_ascii_char a) (toUpperCase_ascii rest)
  end.

(** [getInitials] of [EmailPreviewCard] (lines 284-289).  The platform's
    [toUpperCase] is a parameter: upper-casing leaves the code units below
    256 for some characters. *)
Definition getInitials (toUpperCase : string -> string) (sender : string) : string :=
  match split_spaces sender with
  | w0 :: w1 :: _ => toUpperCase (first_char_text w0 ++ first_char_text w1)
  | _ => toUpperCase (substring_0_2 sender)
  end.

(** *** [DashboardStats] (lines 172-187)

    [parse] stands for [new Date(text).getTime()], [None] for an invalid
    date, on which every comparison is false. *)
Definition WEEK_MS : Z := 7 * 24 * 60 * 60 * 1000.
Definition MONTH_MS : Z := 30 * 24 * 60 * 60 * 1000.

Definition counted_since (parse : string -> option Z) (cutoff : Z) (log : ActivityLog) : bool :=
  match parse (timestamp log) with
  | Some t => (cutoff <=? t)%Z
  | None => false
  end && bool_decide (status log = success).

Definition cleaned_since (parse : string -> option Z) (cutoff : Z)
    (logs : list ActivityLog) : Z :=
  fold_left (fun sum log => (sum + emailsDeleted log)%Z)
    (List.filter (counted_since parse cutoff) logs) 0%Z.

Definition weekCount (parse : string -> option Z) (now : Z) (logs : list ActivityLog) : Z :=
  cleaned_since parse (now - WEEK_MS) logs.

Definition monthCount (parse : string -> option Z) (now : Z) (logs : list ActivityLog) : Z :=
  cleaned_since parse (now - MONTH_MS) logs.



(** ** Reading a stored log back as typed entries *)

Definition read_Status (t : string) : option Status :=
  if String.eqb t "success" then Some success
  else if String.eqb t "error" then Some error
  else None.

Definition as_entry (v : Json) : option ActivityLog :=
  match v with
  | JObj f =>
      i ← get_str "id" f;
      t ← get_str "timestamp" f;
      a ← get_str "action" f;
      n ← get_num "emailsDeleted" f;
      s ← get_str "status" f ≫= read_Status;
      Some {| log_id := i; timestamp := t; action := a; emailsDeleted := n; status := s |}
  | _ => None
  end.

Definition as_activity_log (v : Json) : option (list ActivityLog) :=
  match v with
  | JArr l => mapM as_entry l
  | _ => None
  end.

(** The store and the page show the same log. *)
Definition log_in_sync (w : World) : Prop :=
  loadActivityLog (storage w) = JArr (map ActivityLog_to_json (activityLog (ui w))).

(** Which agent a handler addresses. *)
Definition agent_of (h : Handler) : string :=
  match h with
  | Send | Delete => RANDOM_AGENT_ID
  | RunNow | TestRun => PERIODIC_AGENT_ID
  end.

(** Events that touch the settings of the page or of the store. *)
Definition is_save (e : Event) : bool :=
  match e with SaveClick => true | _ => false end.

Fixpoint has_space (s : string) : bool :=
  match s with
  | EmptyString => false
  | String a rest => Ascii.eqb a " " || has_space rest
  end.

(** The cells owned by the chat panel, and those every handler leaves to
    the settings tab. *)
Definition chat_cells (s : State) :=
  (chatMessages s, chatInput s, chatLoading s, emailPreviews s, selectedEmails s,
   chatError s).

Definition periodic_cells (s : State) := (periodicLoading s, periodicError s).

Definition settings_cells (s : State) := (settings s, settingsSaved s).

(** The text a failed delete-selected shows. *)
Definition delete_error_text (o : Outcome RandomAgentResponse) : string :=
  match o with
  | Resolved env =>
      if is_success env then NETWORK_ERROR
      else js_or (env_error env) "Failed to delete emails"
  | Threw => NETWORK_ERROR
  end.

(** What one step may do to the log and the store: nothing, or replace the
    log by a list of at most 50 entries and write that list. *)
Definition log_effect (w w' : World) : Prop :=
  (activityLog (ui w') = activityLog (ui w) /\ storage w' = storage w) \/
  (exists logs, length logs <= 50 /\
     activityLog (ui w') = logs /\ storage w' = saveActivityLog logs (storage w)).

(** The one event that can leave the selection pointing at previews that
    are gone: the reply to a submit settles and empties the preview batch. *)
Definition empties_batch (x : Session) (e : Event) : bool :=
  match e with
  | ChatSettles n o _ =>
      match inflight x !! n with
      | Some (AwaitSend _) => clears_batch o
      | _ => false
      end
  | _ => false
  end.

(** No event of the sequence, taken in the session it occurs in, is of that
    kind. *)
Fixpoint never_empties_batch (events : list Event) (x : Session) : bool :=
  match events with
  | [] => true
  | e :: rest => negb (empties_batch x e) && never_empties_batch rest (step x e)
  end.

(** * Properties *)

(** ** The insertion-ordered set *)

Lemma has_true (x : string) (s : JsSet.t) : JsSet.has x s = true <-> x ∈ s.
Proof. unfold JsSet.has. apply bool_decide_eq_true. Qed.

Lemma has_false (x : string) (s : JsSet.t) : JsSet.has x s = false <-> x ∉ s.
Proof. unfold JsSet.has. apply bool_decide_eq_false. Qed.

Lemma elem_of_add (x y : string) (s : JsSet.t) :
  x ∈ JsSet.add y s <-> x = y \/ x ∈ s.
Proof.
  unfold JsSet.add. destruct (JsSet.has y s) eqn:E.
  - apply has_true in E. split; [auto | intros [-> | H]; assumption].
  - rewrite elem_of_app, list_elem_of_singleton. tauto.
Qed.

Lemma elem_of_delete (x y : string) (s : JsSet.t) :
  x ∈ JsSet.delete y s <-> x ∈ s /\ x <> y.
Proof.
  unfold JsSet.delete. rewrite !list_elem_of_In, filter_In, negb_true_iff.
  rewrite String.eqb_neq. intuition congruence.
Qed.

Lemma elem_of_toggle (x y : string) (s : JsSet.t) :
  x ∈ toggle y s <-> (x = y /\ y ∉ s) \/ (x <> y /\ x ∈ s).
Proof.
  unfold toggle. destruct (JsSet.has y s) eqn:E.
  - apply has_true in E. rewrite elem_of_delete.
    destruct (decide (x = y)) as [-> | Hne]; intuition.
  - apply has_false in E. rewrite elem_of_add.
    destruct (decide (x = y)) as [-> | Hne]; intuition.
Qed.

(** One toggle flips the membership of its own id and of no other. *)
Lemma has_toggle (x y : string) (s : JsSet.t) :
  JsSet.has x (toggle y s) =
  if String.eqb y x then negb (JsSet.has x s) else JsSet.has x s.
Proof.
  destruct (String.eqb_spec y x) as [-> | Hne].
  - destruct (JsSet.has x s) eqn:E; simpl.
    + apply has_false. rewrite elem_of_toggle. apply has_true in E. intuition.
    + apply has_true. rewrite elem_of_toggle. apply has_false in E. intuition.
  - destruct (JsSet.has x s) eqn:E.
    + apply has_true. rewrite elem_of_toggle. apply has_true in E. right. split; congruence.
    + apply has_false. rewrite elem_of_toggle. apply has_false in E.
      intros [[-> _] | [_ H]]; [congruence | contradiction].
Qed.

(** Membership after any sequence of toggles is the initial membership
    flipped once per toggle of that id. *)
Lemma toggle_parity (calls : list string) (s : State) (x : string) :
  JsSet.has x (selectedEmails (toggle_all calls s)) =
  xorb (JsSet.has x (selectedEmails s)) (Nat.odd (toggles_of x calls)).
Proof.
  revert s. induction calls as [| y calls IH]; intros s.
  - simpl. now rewrite xorb_false_r.
  - unfold toggle_all in *. cbn [fold_left]. rewrite IH.
    unfold toggleEmailSelection at 1. cbn [selectedEmails setSelectedEmails].
    rewrite has_toggle. unfold toggles_of. cbn [List.filter].
    rewrite (String.eqb_sym x y).
    destruct (String.eqb y x); cbn [length].
    + rewrite Nat.odd_succ, <- Nat.negb_odd.
      destruct (JsSet.has x (selectedEmails s)), (Nat.odd _); reflexivity.
    + reflexivity.
Qed.

Lemma toggle_all_previews (calls : list string) (s : State) :
  emailPreviews (toggle_all calls s) = emailPreviews s.
Proof.
  revert s. induction calls as [| y calls IH]; intros s; [reflexivity |].
  unfold toggle_all in *. cbn [fold_left]. now rewrite IH.
Qed.

(** Toggling ids of the rendered cards keeps the selection inside the batch. *)
Lemma toggle_all_within_batch (calls : list string) (s : State) :
  selection_within_batch s ->
  (forall y, y ∈ calls -> y ∈ preview_ids s) ->
  selection_within_batch (toggle_all calls s).
Proof.
  revert s. induction calls as [| y calls IH]; intros s Hs Hc; [exact Hs |].
  unfold toggle_all in *. cbn [fold_left]. apply IH.
  - intros x Hx. unfold toggleEmailSelection in Hx. cbn in Hx.
    apply elem_of_toggle in Hx. unfold preview_ids. cbn.
    destruct Hx as [[-> _] | [_ Hx]].
    + apply Hc. left.
    + now apply Hs.
  - intros z Hz. unfold preview_ids. cbn. apply Hc. now right.
Qed.

(** [new Set(ids)] keeps a duplicate-free list as it is. *)
Lemma of_list_app (l acc : list string) :
  NoDup (acc ++ l) ->
  fold_left (fun a x => JsSet.add x a) l acc = (acc ++ l)%list.
Proof.
  revert acc. induction l as [| x l IH]; intros acc Hnd.
  - simpl. now rewrite app_nil_r.
  - cbn [fold_left]. assert (Hx : JsSet.has x acc = false).
    { apply has_false. intros Hin. apply NoDup_app in Hnd as (_ & Hnd & _).
      apply (Hnd x Hin). left. }
    unfold JsSet.add at 2. rewrite Hx.
    rewrite IH; rewrite <- app_assoc; simpl; [reflexivity | exact Hnd].
Qed.

Lemma of_list_NoDup (l : list string) : NoDup l -> JsSet.of_list l = l.
Proof. intros H. unfold JsSet.of_list, JsSet.empty. now rewrite of_list_app. Qed.

Lemma elem_of_of_list_acc (l acc : list string) (x : string) :
  x ∈ fold_left (fun a y => JsSet.add y a) l acc <-> x ∈ acc \/ x ∈ l.
Proof.
  revert acc. induction l as [| y l IH]; intros acc; cbn [fold_left].
  - rewrite elem_of_nil. tauto.
  - rewrite IH, elem_of_add, elem_of_cons. tauto.
Qed.

Lemma elem_of_of_list (l : list string) (x : string) :
  x ∈ JsSet.of_list l <-> x ∈ l.
Proof.
  unfold JsSet.of_list, JsSet.empty. rewrite elem_of_of_list_acc, elem_of_nil. tauto.
Qed.

(** Select-all leaves the selection inside the batch. *)
Lemma selectAllEmails_within_batch (s : State) :
  selection_within_batch (selectAllEmails s).
Proof.
  unfold selectAllEmails, selection_within_batch, preview_ids.
  destruct (_ =? _)%nat;
    cbn [selectedEmails setSelectedEmails emailPreviews]; intros x Hx.
  - now apply elem_of_nil in Hx.
  - exact (proj1 (elem_of_of_list _ _) Hx).
Qed.

(** ** Selection against the preview batch *)

(** A successful reply that carries previews replaces the batch and empties
    the selection, whatever was selected. *)
Lemma sendChatMessage_replace_resets_selection
    (c : State) (env : Envelope RandomAgentResponse) (data : RandomAgentResponse)
    (p : EmailPreview) (ps : list EmailPreview) (clk : Clock) (w : World) :
  is_success env = true ->
  response_result env = Some data ->
  email_preview data = Some (p :: ps) ->
  emailPreviews (ui (sendChatMessage_resume c (Resolved env) clk w)) = p :: ps /\
  selectedEmails (ui (sendChatMessage_resume c (Resolved env) clk w)) = JsSet.empty.
Proof.
  intros Hok Hres Hprev. unfold sendChatMessage_resume.
  rewrite Hok, Hres, Hprev. destruct (0 <? emails_deleted data)%Z; split; reflexivity.
Qed.

(** A successful reply without previews empties the batch and leaves the
    selection as it was. *)
Lemma sendChatMessage_clear_keeps_selection
    (c : State) (env : Envelope RandomAgentResponse) (data : RandomAgentResponse)
    (clk : Clock) (w : World) :
  is_success env = true ->
  response_result env = Some data ->
  email_preview data = None \/ email_preview data = Some [] ->
  emailPreviews (ui (sendChatMessage_resume c (Resolved env) clk w)) = [] /\
  selectedEmails (ui (sendChatMessage_resume c (Resolved env) clk w)) =
    selectedEmails (ui w).
Proof.
  intros Hok Hres Hprev. unfold sendChatMessage_resume. rewrite Hok, Hres.
  destruct Hprev as [-> | ->]; destruct (0 <? emails_deleted data)%Z; split; reflexivity.
Qed.

(** A successful delete empties the selection. *)
Lemma deleteSelectedEmails_resets_selection
    (c : State) (env : Envelope RandomAgentResponse) (data : RandomAgentResponse)
    (clk : Clock) (w : World) :
  is_success env = true ->
  response_result env = Some data ->
  selectedEmails (ui (deleteSelectedEmails_resume c (Resolved env) clk w)) = JsSet.empty.
Proof.
  intros Hok Hres. unfold deleteSelectedEmails_resume. now rewrite Hok, Hres.
Qed.

(** C1 (the code departs from the claim).  Two previews are shown and the
    first is selected; the user submits a query and the agent answers
    successfully with an empty preview list.  The batch is cleared but the
    selection still holds the id of a preview that is gone: it is neither
    empty nor a subset of the batch. *)
Theorem submit_clearing_leaves_stale_selection :
  let w := {| ui := Scenario.browsing; storage := Scenario.empty_store |} in
  let w' := submit Scenario.t0 (Resolved (Scenario.answer [] 0)) Scenario.t1 w in
  selection_within_batch (ui w) /\
  emailPreviews (ui w') = [] /\
  selectedEmails (ui w') = ["m1"] /\
  ~ selection_within_batch (ui w').
Proof.
  cbv zeta. split; [| split; [| split]].
  - intros x Hx. cbn in Hx. apply list_elem_of_singleton in Hx as ->.
    cbn. left.
  - reflexivity.
  - reflexivity.
  - intros H. specialize (H "m1"). cbn in H.
    assert (Hin : "m1" ∈ ["m1"]) by left.
    apply H in Hin. now apply elem_of_nil in Hin.
Qed.

(** Every other event of the page keeps the selection inside the batch: the
    only step that can break it is a submit settling with a reply that
    empties the batch. *)
Lemma step_keeps_selection_within_batch (x : Session) (e : Event) :
  selection_within_batch (ui (world x)) ->
  (forall n o clk c, e = ChatSettles n o clk ->
     inflight x !! n = Some (AwaitSend c) -> clears_batch o = false) ->
  selection_within_batch (ui (world (step x e))).
Proof.
  destruct x as [[s st] l]. cbn [world inflight ui]. intros Hs Hsafe.
  destruct e as [ctl clk | text | i | | | | s' | tab | n o clk | n o clk];
    cbn [step world inflight ui storage].
  - unfold press. destruct (control_disabled ctl s); [exact Hs |].
    destruct ctl; cbn [handler_of invoke];
      unfold sendChatMessage_begin, deleteSelectedEmails_begin, runCleanupNow_begin,
        testRunCleanup_begin;
      [ destruct (trim_is_empty _ || _) | destruct (trim_is_empty _ || _)
      | destruct (_ =? _)%nat | | ]; exact Hs.
  - exact Hs.
  - destruct (emailPreviews s !! i) as [p |] eqn:Hp; [| exact Hs].
    apply (toggle_all_within_batch [email_id p] s Hs).
    intros y Hy. apply list_elem_of_singleton in Hy as ->.
    unfold preview_ids. apply list_elem_of_fmap. exists p. split; [reflexivity |].
    apply list_elem_of_lookup. now exists i.
  - destruct (_ =? _)%nat; [exact Hs |]. apply selectAllEmails_within_batch.
  - unfold saveSettings. destruct (setItem _ _ _); exact Hs.
  - exact Hs.
  - exact Hs.
  - exact Hs.
  - destruct (l !! n) as [[c | c | c | c] |] eqn:Hn; try exact Hs; cbn [world].
    + specialize (Hsafe n o clk c eq_refl Hn).
      unfold clears_batch, accepted in Hsafe. unfold sendChatMessage_resume.
      destruct o as [| env]; [exact Hs |].
      destruct (is_success env); [| exact Hs].
      destruct (response_result env) as [data |]; [| exact Hs].
      destruct (email_preview data) as [[| p ps] |]; try discriminate Hsafe.
      destruct (0 <? emails_deleted data)%Z; intros y Hy; cbn in Hy;
        now apply elem_of_nil in Hy.
    + unfold deleteSelectedEmails_resume.
      destruct o as [| env]; [exact Hs |].
      destruct (is_success env); [| exact Hs].
      destruct (response_result env) as [data |]; [| exact Hs].
      intros y Hy. cbn in Hy. now apply elem_of_nil in Hy.
  - destruct (l !! n) as [[c | c | c | c] |] eqn:Hn; try exact Hs; cbn [world];
      unfold runCleanupNow_resume, testRunCleanup_resume; repeat case_match; exact Hs.
Qed.

(** ** Select all or none *)

(** C8, as stated, fails: with the whole batch selected, the first call
    clears the selection and the second selects the whole batch again; and
    when two previews share an id the set built from the batch is smaller
    than the batch, so the second call selects again instead of clearing. *)
Lemma selectAll_twice_not_always_empty :
  (let s := setSelectedEmails ["m1"; "m2"] Scenario.browsing in
   selectedEmails (selectAllEmails (selectAllEmails s)) = ["m1"; "m2"]) /\
  (let s := setEmailPreviews [Scenario.mail "m1"; Scenario.mail "m1"] Scenario.idle in
   selectedEmails (selectAllEmails (selectAllEmails s)) = ["m1"]) /\
  ~ (forall s : State, selectedEmails (selectAllEmails (selectAllEmails s)) = JsSet.empty).
Proof.
  split; [reflexivity | split; [reflexivity |]].
  intros H. specialize (H (setSelectedEmails ["m1"; "m2"] Scenario.browsing)).
  discriminate H.
Qed.

(** C8 (amended).  Over a batch whose ids are pairwise distinct, two calls
    in a row end with the empty selection when the selection size differed
    from the batch size at the start, and with the whole batch selected when
    the two sizes were equal. *)
Theorem selectAll_twice (s : State) :
  NoDup (preview_ids s) ->
  selectedEmails (selectAllEmails (selectAllEmails s)) =
  if (JsSet.size (selectedEmails s) =? length (emailPreviews s))%nat
  then preview_ids s
  else JsSet.empty.
Proof.
  intros Hnd. unfold selectAllEmails at 2.
  destruct (JsSet.size (selectedEmails s) =? length (emailPreviews s))%nat eqn:E.
  - unfold selectAllEmails. cbn [selectedEmails setSelectedEmails emailPreviews].
    unfold JsSet.size at 1, JsSet.empty at 1. cbn [length].
    destruct (emailPreviews s) as [| p ps] eqn:Ep.
    + unfold preview_ids. rewrite Ep. reflexivity.
    + cbn [length Nat.eqb]. cbn [selectedEmails setSelectedEmails].
      fold (preview_ids s) in *. unfold preview_ids in *. rewrite Ep in *.
      now apply of_list_NoDup.
  - unfold selectAllEmails. cbn [selectedEmails setSelectedEmails emailPreviews].
    fold (preview_ids s). rewrite (of_list_NoDup _ Hnd).
    unfold JsSet.size, preview_ids. rewrite length_map, Nat.eqb_refl. reflexivity.
Qed.

Lemma selectAll_twice_witness :
  NoDup (preview_ids Scenario.browsing) /\
  selectedEmails (selectAllEmails (selectAllEmails Scenario.browsing)) = JsSet.empty.
Proof.
  assert (Hnd : NoDup (preview_ids Scenario.browsing)).
  { refine (@bool_decide_unpack _ (NoDup_dec _) _). vm_compute. exact I. }
  split; [exact Hnd |].
  exact (selectAll_twice Scenario.browsing Hnd).
Defined.

(** ** In-flight gates *)



(** What settling a request does to the two flags. *)
Ltac settle_cases := intros; cbv delta [sendChatMessage_resume deleteSelectedEmails_resume
  runCleanupNow_resume testRunCleanup_resume] beta; repeat case_match; reflexivity.

Lemma sendChatMessage_resume_flags c o clk w :
  chatLoading (ui (sendChatMessage_resume c o clk w)) = false /\
  periodicLoading (ui (sendChatMessage_resume c o clk w)) = periodicLoading (ui w).
Proof. split; settle_cases. Qed.

Lemma deleteSelectedEmails_resume_flags c o clk w :
  chatLoading (ui (deleteSelectedEmails_resume c o clk w)) = false /\
  periodicLoading (ui (deleteSelectedEmails_resume c o clk w)) = periodicLoading (ui w).
Proof. split; settle_cases. Qed.

Lemma runCleanupNow_resume_flags c o clk w :
  periodicLoading (ui (runCleanupNow_resume c o clk w)) = false /\
  chatLoading (ui (runCleanupNow_resume c o clk w)) = chatLoading (ui w).
Proof. split; settle_cases. Qed.

Lemma testRunCleanup_resume_flags c o clk w :
  periodicLoading (ui (testRunCleanup_resume c o clk w)) = false /\
  chatLoading (ui (testRunCleanup_resume c o clk w)) = chatLoading (ui w).
Proof. split; settle_cases. Qed.









(** The two flags are independent: a chat request in flight does not disable
    the periodic controls, and conversely. *)
Lemma gates_independent (clk : Clock) (s : State) :
  periodicLoading s = false ->
  press RunNowButton clk s = runCleanupNow_begin s /\
  press TestRunButton clk s = testRunCleanup_begin s.
Proof. intros H. unfold press. cbn. rewrite H. split; reflexivity. Qed.

(** ** Transport failures *)

(** C3, as stated, fails for the real run: when the gateway call rejects,
    [runCleanupNow] records an error entry with count 0. *)
Lemma runNow_logs_transport_failure :
  let w := {| ui := Scenario.idle; storage := Scenario.empty_store |} in
  let w' := runNow Threw Scenario.t1 w in
  activityLog (ui w) = [] /\
  periodicError (ui w') = Some "Network error. Please try again." /\
  activityLog (ui w') =
    [ {| log_id := "1700000002500"; timestamp := "2023-11-14T22:13:22.500Z";
         action := "Scheduled cleanup failed"; emailsDeleted := 0;
         status := error |} ].
Proof. repeat split; reflexivity. Qed.

(** C3 (amended).  When the gateway call rejects, every entry point reports
    the same fixed text in its error slot (submit also as an assistant
    message).  Submit, delete-selected and the dry run leave the activity
    log and the store untouched; the real run records one error entry with
    count 0 on top of the log of the invoking render. *)
Theorem transport_failure (c : State) (clk : Clock) (w : World) :
  (let w' := sendChatMessage_resume c Threw clk w in
   chatError (ui w') = Some NETWORK_ERROR /\
   chatMessages (ui w') =
     (chatMessages (ui w) ++ [assistantMessage clk NETWORK_ERROR])%list /\
   activityLog (ui w') = activityLog (ui w) /\ storage w' = storage w) /\
  (let w' := deleteSelectedEmails_resume c Threw clk w in
   chatError (ui w') = Some NETWORK_ERROR /\
   activityLog (ui w') = activityLog (ui w) /\ storage w' = storage w) /\
  (let w' := testRunCleanup_resume c Threw clk w in
   periodicError (ui w') = Some NETWORK_ERROR /\
   activityLog (ui w') = activityLog (ui w) /\ storage w' = storage w) /\
  (let w' := runCleanupNow_resume c Threw clk w in
   periodicError (ui w') = Some NETWORK_ERROR /\
   activityLog (ui w') =
     take 50 ({| log_id := show_Z (now_ms clk); timestamp := now_iso clk;
                 action := "Scheduled cleanup failed"; emailsDeleted := 0;
                 status := error |} :: activityLog c)).
Proof. repeat split; reflexivity. Qed.

(** ** Periodic runs *)

(** C4.  On a successful periodic reply the real run puts one entry on top
    of the log, with count [total_emails_deleted] and status success, and
    switches to the dashboard tab; the dry run puts one entry on top of the
    log with count 0 and status success, whose label spells
    [total_emails_processed].  Neither count is read from
    [total_emails_processed]: it differs from it whenever
    [total_emails_processed] differs from [total_emails_deleted]
    (real run), respectively from 0 (dry run).  The log the entry is put on
    top of is that of the invoking render [c]; for an invocation nothing
    interleaves with, it is the log at the time of the call. *)
Theorem periodic_success_records
    (c : State) (clk : Clock) (w : World)
    (env : Envelope PeriodicResponse) (data : PeriodicResponse) :
  is_success env = true ->
  response_result env = Some data ->
  let deleted := total_emails_deleted (cleanup_summary data) in
  let processed := total_emails_processed (cleanup_summary data) in
  let wr := runCleanupNow_resume c (Resolved env) clk w in
  let wt := testRunCleanup_resume c (Resolved env) clk w in
  (activityLog (ui wr) =
     take 50 ({| log_id := show_Z (now_ms clk); timestamp := now_iso clk;
                 action := "Scheduled cleanup executed"; emailsDeleted := deleted;
                 status := success |} :: activityLog c) /\
   activeTab (ui wr) = "dashboard" /\
   (processed <> deleted ->
    emailsDeleted <$> head (activityLog (ui wr)) <> Some processed)) /\
  (activityLog (ui wt) =
     take 50 ({| log_id := show_Z (now_ms clk); timestamp := now_iso clk;
                 action := "Test run: would delete " ++ show_Z processed ++ " emails";
                 emailsDeleted := 0; status := success |} :: activityLog c) /\
   (processed <> 0%Z ->
    emailsDeleted <$> head (activityLog (ui wt)) <> Some processed)) /\
  (activityLog (ui (runNow (Resolved env) clk w)) =
     take 50 ({| log_id := show_Z (now_ms clk); timestamp := now_iso clk;
                 action := "Scheduled cleanup executed"; emailsDeleted := deleted;
                 status := success |} :: activityLog (ui w)) /\
   activityLog (ui (testRun (Resolved env) clk w)) =
     take 50 ({| log_id := show_Z (now_ms clk); timestamp := now_iso clk;
                 action := "Test run: would delete " ++ show_Z processed ++ " emails";
                 emailsDeleted := 0; status := success |} :: activityLog (ui w))).
Proof.
  intros Hok Hres. cbv zeta.
  unfold runNow, testRun, runCleanupNow_begin, testRunCleanup_begin.
  unfold runCleanupNow_resume, testRunCleanup_resume. rewrite Hok, Hres.
  split; [split; [reflexivity | split; [reflexivity |]] |
          split; [split; [reflexivity |] | split; reflexivity]].
  - intros Hne. cbn. congruence.
  - intros Hne. cbn. congruence.
Qed.

Lemma periodic_success_records_witness :
  let w := {| ui := Scenario.idle; storage := Scenario.empty_store |} in
  activityLog (ui (runCleanupNow_resume Scenario.idle
                     (Resolved (Scenario.report 42 17)) Scenario.t1 w)) =
    [ {| log_id := "1700000002500"; timestamp := "2023-11-14T22:13:22.500Z";
         action := "Scheduled cleanup executed"; emailsDeleted := 17;
         status := success |} ] /\
  activityLog (ui (testRunCleanup_resume Scenario.idle
                     (Resolved (Scenario.report 42 17)) Scenario.t1 w)) =
    [ {| log_id := "1700000002500"; timestamp := "2023-11-14T22:13:22.500Z";
         action := "Test run: would delete 42 emails"; emailsDeleted := 0;
         status := success |} ].
Proof.
  pose proof (periodic_success_records Scenario.idle Scenario.t1
                {| ui := Scenario.idle; storage := Scenario.empty_store |}
                (Scenario.report 42 17) _ eq_refl eq_refl) as H.
  cbv zeta in H. destruct H as ([Hr _] & [Ht _] & _).
  split; [exact Hr | exact Ht].
Defined.

(** ** Delete selected *)

Lemma elem_of_filter_unselected (sel : JsSet.t) (l : list EmailPreview) (e : EmailPreview) :
  e ∈ List.filter (fun e => negb (JsSet.has (email_id e) sel)) l <->
  e ∈ l /\ email_id e ∉ sel.
Proof.
  rewrite (list_elem_of_In _ e), filter_In, negb_true_iff, has_false.
  now rewrite (list_elem_of_In l e).
Qed.

(** C5.  With a non-empty selection [sel] and an accepted reply [data], the
    invocation puts one entry on top of the log whose label spells the size
    of [sel] and whose count is [emails_deleted] of the reply, keeps exactly
    the previews whose id is not in [sel], empties the selection and appends
    one assistant message.  On any failure previews, selection, log and
    store are as before.  With an empty selection nothing happens at all. *)
Theorem deleteSelected_spec (o : Outcome RandomAgentResponse) (clk : Clock) (w : World) :
  let sel := selectedEmails (ui w) in
  let w' := deleteSelected o clk w in
  (forall data, JsSet.size sel <> 0 -> accepted o = Some data ->
     activityLog (ui w') =
       take 50 ({| log_id := show_Z (now_ms clk); timestamp := now_iso clk;
                   action := "Deleted " ++ show_nat (JsSet.size sel) ++ " selected emails";
                   emailsDeleted := emails_deleted data; status := success |}
                :: activityLog (ui w)) /\
     (forall e, e ∈ emailPreviews (ui w') <->
                e ∈ emailPreviews (ui w) /\ email_id e ∉ sel) /\
     emailPreviews (ui w') =
       List.filter (fun e => negb (JsSet.has (email_id e) sel)) (emailPreviews (ui w)) /\
     selectedEmails (ui w') = JsSet.empty /\
     chatMessages (ui w') =
       (chatMessages (ui w) ++
        [ {| msg_id := show_Z (now_ms clk); role := assistant;
             content := "Successfully deleted " ++ show_Z (emails_deleted data) ++ " emails.";
             msg_timestamp := now_iso clk |} ])%list) /\
  (JsSet.size sel <> 0 -> accepted o = None ->
     emailPreviews (ui w') = emailPreviews (ui w) /\
     selectedEmails (ui w') = sel /\
     activityLog (ui w') = activityLog (ui w) /\
     storage w' = storage w) /\
  (JsSet.size sel = 0 -> w' = w).
Proof.
  cbv zeta. unfold deleteSelected, deleteSelectedEmails_begin.
  destruct (JsSet.size (selectedEmails (ui w)) =? 0)%nat eqn:E.
  - apply Nat.eqb_eq in E. split; [| split].
    + intros data Hne. contradiction.
    + intros Hne. contradiction.
    + intros _. destruct w; reflexivity.
  - apply Nat.eqb_neq in E. split; [| split].
    + intros data _ Hacc. unfold deleteSelectedEmails_resume, accepted in *.
      destruct o as [| env]; [discriminate |].
      destruct (is_success env); [| discriminate]. rewrite Hacc.
      split; [reflexivity | split; [| split; [reflexivity | split; reflexivity]]].
      intros e. cbn. apply elem_of_filter_unselected.
    + intros _ Hacc. unfold deleteSelectedEmails_resume, accepted in *.
      destruct o as [| env]; [repeat split; reflexivity |].
      destruct (is_success env); [rewrite Hacc |]; repeat split; reflexivity.
    + intros Hz. contradiction.
Qed.

(** The scenario of section 8: three of five previews selected, the agent
    reports three deletions. *)
Lemma deleteSelected_spec_witness :
  let w := {| ui := Scenario.three_of_five; storage := Scenario.empty_store |} in
  let w' := deleteSelected (Resolved (Scenario.answer [] 3)) Scenario.t1 w in
  activityLog (ui w') =
    [ {| log_id := "1700000002500"; timestamp := "2023-11-14T22:13:22.500Z";
         action := "Deleted 3 selected emails"; emailsDeleted := 3;
         status := success |} ] /\
  emailPreviews (ui w') = [Scenario.mail "m2"; Scenario.mail "m4"] /\
  selectedEmails (ui w') = [].
Proof.
  cbv zeta.
  destruct (deleteSelected_spec (Resolved (Scenario.answer [] 3)) Scenario.t1
              {| ui := Scenario.three_of_five; storage := Scenario.empty_store |})
    as [Hok _].
  cbv zeta in Hok.
  destruct (Hok _ ltac:(vm_compute; discriminate) eq_refl)
    as (Hlog & _ & Hprev & Hsel & _).
  split; [exact Hlog | split; [exact Hprev | exact Hsel]].
Defined.

(** ** The activity log *)

Lemma take_app_take {A} (n : nat) (l1 l2 : list A) :
  take n (l1 ++ take n l2) = take n (l1 ++ l2).
Proof.
  rewrite !take_app, take_take. f_equal. f_equal. lia.
Qed.

Lemma take_cons_take {A} (n : nat) (x : A) (l : list A) :
  take n (x :: take n l) = take n (x :: l).
Proof. exact (take_app_take n [x] l). Qed.

Lemma record_entry_log (w : World) (a : Append) :
  activityLog (ui (record_entry w a)) = take 50 (entry_of a :: activityLog (ui w)).
Proof. reflexivity. Qed.

Lemma record_entry_length (w : World) (a : Append) :
  length (activityLog (ui (record_entry w a))) <= 50.
Proof. rewrite record_entry_log, length_take. lia. Qed.

Lemma record_entry_writable (w : World) (a : Append) :
  writable (storage (record_entry w a)) = writable (storage w).
Proof.
  unfold record_entry, addActivityLog, saveActivityLog, setItem. cbn.
  destruct (writable (storage w)) eqn:E; [reflexivity | exact E].
Qed.

(** An accepted write leaves the serialisation of the whole new log under
    the activity key. *)
Lemma record_entry_persisted (w : World) (a : Append) :
  writable (storage w) = true ->
  persisted_log (storage (record_entry w a)) =
  Some (JSON_stringify (JArr (map ActivityLog_to_json (activityLog (ui (record_entry w a)))))).
Proof.
  intros Hw. unfold persisted_log, record_entry, addActivityLog, saveActivityLog, setItem.
  rewrite Hw. cbn. apply lookup_insert_eq.
Qed.

(** A rejected write is swallowed: the store stays as it was. *)
Lemma record_entry_dropped (w : World) (a : Append) :
  writable (storage w) = false -> storage (record_entry w a) = storage w.
Proof.
  intros Hw. unfold record_entry, addActivityLog, saveActivityLog, setItem.
  rewrite Hw. reflexivity.
Qed.

Lemma record_entries_log (l : list Append) (w : World) :
  take 50 (activityLog (ui (record_entries l w))) =
  take 50 (rev (map entry_of l) ++ activityLog (ui w)).
Proof.
  revert w. induction l as [| a l IH]; intros w; [reflexivity |].
  change (record_entries (a :: l) w) with (record_entries l (record_entry w a)).
  rewrite IH, record_entry_log, take_app_take. cbn [map rev].
  now rewrite <- app_assoc.
Qed.

Lemma record_entries_snoc (l : list Append) (a : Append) (w : World) :
  record_entries (l ++ [a]) w = record_entry (record_entries l w) a.
Proof. unfold record_entries. now rewrite fold_left_app. Qed.

Lemma record_entries_writable (l : list Append) (w : World) :
  writable (storage (record_entries l w)) = writable (storage w).
Proof.
  induction l as [| a l IH] using rev_ind; [reflexivity |].
  now rewrite record_entries_snoc, record_entry_writable.
Qed.

Lemma record_entries_persisted (l : list Append) (w : World) :
  l <> [] ->
  writable (storage w) = true ->
  persisted_log (storage (record_entries l w)) =
  Some (JSON_stringify (JArr (map ActivityLog_to_json (activityLog (ui (record_entries l w)))))).
Proof.
  intros Hne Hw. destruct l as [| a l] using rev_ind; [contradiction |].
  rewrite record_entries_snoc. apply record_entry_persisted. now rewrite record_entries_writable.
Qed.

Lemma record_entries_dropped (l : list Append) (w : World) :
  writable (storage w) = false -> storage (record_entries l w) = storage w.
Proof.
  intros Hw. induction l as [| a l IH] using rev_ind; [reflexivity |].
  rewrite record_entries_snoc, record_entry_dropped; [exact IH |].
  now rewrite record_entries_writable.
Qed.

(** C6, as stated, fails in its last clause: when the store rejects the
    write the entry is recorded in memory and nothing is persisted. *)
Lemma append_not_persisted_on_full_store :
  let w := {| ui := Scenario.idle; storage := Scenario.full_store |} in
  let a := {| append_clock := Scenario.t1; append_action := "Scheduled cleanup executed";
              append_count := 17; append_status := success |} in
  activityLog (ui (record_entry w a)) = [entry_of a] /\
  persisted_log (storage (record_entry w a)) = None /\
  ~ (forall (w : World) (a : Append),
       persisted_log (storage (record_entry w a)) =
       Some (JSON_stringify
               (JArr (map ActivityLog_to_json (activityLog (ui (record_entry w a))))))).
Proof.
  cbv zeta. split; [reflexivity | split; [reflexivity |]].
  intros H.
  specialize (H {| ui := Scenario.idle; storage := Scenario.full_store |}
                {| append_clock := Scenario.t1; append_action := "x";
                   append_count := 0; append_status := success |}).
  discriminate H.
Qed.

(** C6 (amended).  Let every append run against the log as it then stands.
    After any sequence of appends the log has at most 50 entries and
    consists of the appended entries, newest first, followed by the old log,
    cut to 50; an append to a log of exactly 50 entries puts the new entry in
    front of the first 49 and drops the last one.  After every append the
    store holds the whole cut log when it accepts writes, and is left as it
    was when it rejects them. *)
Theorem activity_log_appends (l : list Append) (a : Append) (w : World) :
  let w' := record_entries (l ++ [a]) w in
  length (activityLog (ui w')) <= 50 /\
  activityLog (ui w') =
    take 50 (entry_of a :: rev (map entry_of l) ++ activityLog (ui w)) /\
  (length (activityLog (ui (record_entries l w))) = 50 ->
   activityLog (ui w') = entry_of a :: take 49 (activityLog (ui (record_entries l w)))) /\
  (writable (storage w) = true ->
   persisted_log (storage w') =
   Some (JSON_stringify (JArr (map ActivityLog_to_json (activityLog (ui w')))))) /\
  (writable (storage w) = false -> storage w' = storage w).
Proof.
  cbv zeta. split; [| split; [| split; [| split]]].
  - rewrite record_entries_snoc. apply record_entry_length.
  - rewrite record_entries_snoc, record_entry_log.
    rewrite <- take_cons_take, record_entries_log. apply take_cons_take.
  - intros _. rewrite record_entries_snoc. reflexivity.
  - intros Hw. apply record_entries_persisted; [| exact Hw].
    intros Habs. now apply app_eq_nil in Habs as [_ ?].
  - apply record_entries_dropped.
Qed.

(** Fifty-one appends to the empty log on a store that accepts writes: the
    log holds fifty entries and the store holds that list. *)
Lemma activity_log_appends_witness :
  let a := {| append_clock := Scenario.t1; append_action := "Scheduled cleanup executed";
              append_count := 17; append_status := success |} in
  let w := {| ui := Scenario.idle; storage := Scenario.empty_store |} in
  let w' := record_entries (replicate 50 a ++ [a]) w in
  activityLog (ui w') = replicate 50 (entry_of a) /\
  persisted_log (storage w') =
    Some (JSON_stringify (JArr (map ActivityLog_to_json (activityLog (ui w'))))).
Proof.
  cbv zeta.
  destruct (activity_log_appends
              (replicate 50 {| append_clock := Scenario.t1;
                               append_action := "Scheduled cleanup executed";
                               append_count := 17; append_status := success |})
              {| append_clock := Scenario.t1;
                 append_action := "Scheduled cleanup executed";
                 append_count := 17; append_status := success |}
              {| ui := Scenario.idle; storage := Scenario.empty_store |})
    as (_ & Hlog & _ & Hsave & _).
  split; [rewrite Hlog; reflexivity | exact (Hsave eq_refl)].
Defined.

(** The handlers close over the log of the render that created them.  When a
    periodic run and a chat request are in flight together, the one that
    settles last builds its list from the log it captured, and the entry the
    other one recorded in between is gone from memory and from the store. *)
Lemma overlapping_requests_lose_an_entry :
  let events :=
    [ Gesture RunNowButton Scenario.t0;
      Typing "Delete promotions";
      Gesture SendButton Scenario.t0;
      ChatSettles 1 (Resolved (Scenario.answer [] 5)) Scenario.t1 ] in
  let x := run events (start defaultSettings [] Scenario.empty_store) in
  let y := step x (PeriodicSettles 0 (Resolved (Scenario.report 42 17)) Scenario.t2) in
  map action (activityLog (ui (world x))) = ["Chat cleanup: promotions"] /\
  map action (activityLog (ui (world y))) = ["Scheduled cleanup executed"] /\
  persisted_log (storage (world y)) =
    Some (JSON_stringify (JArr (map ActivityLog_to_json (activityLog (ui (world y)))))).
Proof. cbv zeta. repeat split; vm_compute; reflexivity. Qed.

(** ** Settings *)

Lemma read_show_Frequency (f : Frequency) : read_Frequency (show_Frequency f) = Some f.
Proof. destruct f; reflexivity. Qed.

(** A record written out and read back is itself, provided its fields are
    admissible. *)
Lemma as_settings_to_json (s : CleanupSettings) :
  as_settings (CleanupSettings_to_json s) = if valid_settings s then Some s else None.
Proof.
  destruct s as [a b c d e t g h]. unfold as_settings, CleanupSettings_to_json.
  unfold get_bool, get_num, get_str. cbn [assoc String.eqb Ascii.eqb Bool.eqb].
  cbn [mbind option_bind]. rewrite read_show_Frequency. reflexivity.
Qed.

Lemma loadSettings_after_save (w : World) :
  writable (storage w) = true ->
  readable (storage w) = true ->
  loadSettings (storage (saveSettings w)) = CleanupSettings_to_json (settings (ui w)).
Proof.
  intros Hw Hr. unfold saveSettings, setItem. rewrite Hw. cbn [storage].
  unfold loadSettings, getItem. cbn [readable items]. rewrite Hr.
  rewrite lookup_insert_eq. reflexivity.
Qed.

(** C7, as stated, fails in its last clause: a stored text that parses is
    returned as parsed, with no check and no merge with the defaults.  A
    store holding an object with one field, or the text [null], loads as just
    that; neither is a Settings record. *)
Lemma loadSettings_returns_partial_record :
  let partial := JObj [("promotional", JBool false)] in
  let st := {| items := {[ SETTINGS_KEY := JSON_stringify partial ]};
               readable := true; writable := true |} in
  let st' := {| items := {[ SETTINGS_KEY := JSON_stringify JNull ]};
                readable := true; writable := true |} in
  loadSettings st = partial /\ as_settings (loadSettings st) = None /\
  loadSettings st' = JNull /\ as_settings (loadSettings st') = None /\
  ~ (forall st, exists s, as_settings (loadSettings st) = Some s).
Proof.
  cbv zeta. split; [vm_compute; reflexivity |].
  split; [vm_compute; reflexivity |].
  split; [vm_compute; reflexivity |].
  split; [vm_compute; reflexivity |].
  intros H.
  destruct (H {| items := {[ SETTINGS_KEY := JSON_stringify JNull ]};
                 readable := true; writable := true |}) as [s Hs].
  vm_compute in Hs. discriminate Hs.
Qed.

(** C7 (amended).  On a store that accepts the write and can be read,
    loading after [saveSettings] returns the saved record, which reads back
    as a complete record when its fields are admissible.  Over a store that
    cannot be read, holds nothing under the key, or holds text that does not
    parse, loading returns the default record, complete and valid.  A stored
    text that parses is returned as parsed. *)
Theorem settings_round_trip (w : World) (st : Storage) :
  (writable (storage w) = true -> readable (storage w) = true ->
   loadSettings (storage (saveSettings w)) = CleanupSettings_to_json (settings (ui w)) /\
   (valid_settings (settings (ui w)) = true ->
    as_settings (loadSettings (storage (saveSettings w))) = Some (settings (ui w)))) /\
  (readable st = false \/ items st !! SETTINGS_KEY = None \/
   (exists raw, items st !! SETTINGS_KEY = Some (Malformed raw)) ->
   loadSettings st = CleanupSettings_to_json defaultSettings /\
   as_settings (loadSettings st) = Some defaultSettings) /\
  (forall v, readable st = true ->
   items st !! SETTINGS_KEY = Some (Stringified v) -> loadSettings st = v).
Proof.
  split; [| split].
  - intros Hw Hr. rewrite (loadSettings_after_save w Hw Hr). split; [reflexivity |].
    intros Hv. now rewrite as_settings_to_json, Hv.
  - intros H.
    assert (Hd : loadSettings st = CleanupSettings_to_json defaultSettings).
    { unfold loadSettings, getItem.
      destruct H as [-> | [H | [raw H]]]; [reflexivity | |].
      - destruct (readable st); [rewrite H |]; reflexivity.
      - destruct (readable st); [rewrite H |]; [| reflexivity].
        destruct raw; reflexivity. }
    rewrite Hd. split; [reflexivity |]. now rewrite as_settings_to_json.
  - intros v Hr Hs. unfold loadSettings, getItem. now rewrite Hr, Hs.
Qed.

(** A record that differs from the default in every field is saved on an
    empty store and read back; without the save the same store gives the
    default. *)
Lemma settings_round_trip_witness :
  let custom := {| promotional := false; oldEmails := false; ageThreshold := 90;
                   scheduleEnabled := true; frequency := daily; scheduleTime := "23:30";
                   requireConfirmation := false; maxEmailsPerRun := 500 |} in
  let w := {| ui := setSettings custom Scenario.idle; storage := Scenario.empty_store |} in
  as_settings (loadSettings (storage (saveSettings w))) = Some custom /\
  as_settings (loadSettings (storage w)) = Some defaultSettings /\
  custom <> defaultSettings.
Proof.
  cbv zeta.
  destruct (settings_round_trip
              {| ui := setSettings
                         {| promotional := false; oldEmails := false; ageThreshold := 90;
                            scheduleEnabled := true; frequency := daily;
                            scheduleTime := "23:30"; requireConfirmation := false;
                            maxEmailsPerRun := 500 |} Scenario.idle;
                 storage := Scenario.empty_store |}
              Scenario.empty_store) as (Hsave & Hmiss & _).
  destruct (Hsave eq_refl eq_refl) as [_ Hrt].
  destruct (Hmiss (or_intror (or_introl eq_refl))) as [_ Hdef].
  split; [exact (Hrt eq_refl) | split; [exact Hdef | discriminate]].
Defined.

(** ** Failed submits *)

(** Two states with the same cells are the same state. *)
Lemma State_ext (s1 s2 : State) :
  activeTab s1 = activeTab s2 -> activityLog s1 = activityLog s2 ->
  settings s1 = settings s2 -> chatMessages s1 = chatMessages s2 ->
  chatInput s1 = chatInput s2 -> chatLoading s1 = chatLoading s2 ->
  emailPreviews s1 = emailPreviews s2 -> selectedEmails s1 = selectedEmails s2 ->
  chatError s1 = chatError s2 -> periodicLoading s1 = periodicLoading s2 ->
  periodicError s1 = periodicError s2 -> settingsSaved s1 = settingsSaved s2 ->
  s1 = s2.
Proof. destruct s1, s2; cbn; intros; subst; reflexivity. Qed.

(** C9.  A submit of a non-blank utterance with the gate clear, whose
    gateway call rejects: the transcript gains the user message and exactly
    one assistant message carrying the fixed text, the gate ends clear, and
    neither the log nor the store changes. *)
Theorem submit_transport_failure (clk1 clk2 : Clock) (w : World) :
  trim_is_empty (chatInput (ui w)) = false ->
  chatLoading (ui w) = false ->
  let w' := submit clk1 Threw clk2 w in
  chatMessages (ui w') =
    (chatMessages (ui w) ++
     [ {| msg_id := show_Z (now_ms clk1); role := user;
          content := chatInput (ui w); msg_timestamp := now_iso clk1 |};
       {| msg_id := show_Z (now_ms clk2 + 1); role := assistant;
          content := "Network error. Please try again.";
          msg_timestamp := now_iso clk2 |} ])%list /\
  chatLoading (ui w') = false /\
  chatError (ui w') = Some "Network error. Please try again." /\
  activityLog (ui w') = activityLog (ui w) /\
  storage w' = storage w.
Proof.
  intros Hin Hgate. cbv zeta. unfold submit, sendChatMessage_begin.
  rewrite Hin, Hgate. cbn. rewrite <- app_assoc. repeat split; reflexivity.
Qed.

Lemma submit_transport_failure_witness :
  let w := {| ui := Scenario.browsing; storage := Scenario.empty_store |} in
  let w' := submit Scenario.t0 Threw Scenario.t1 w in
  map role (chatMessages (ui w')) = [user; assistant] /\
  chatLoading (ui w') = false /\
  activityLog (ui w') = [].
Proof.
  cbv zeta.
  destruct (submit_transport_failure Scenario.t0 Scenario.t1
              {| ui := Scenario.browsing; storage := Scenario.empty_store |}
              eq_refl eq_refl) as (Hm & Hg & _ & Hl & _).
  split; [now rewrite Hm | split; [exact Hg | exact Hl]].
Defined.

(** C10, as stated, fails in its ``only'' clause: a failed submit also
    leaves the input buffer cleared. *)
Lemma failed_submit_clears_input :
  let w := {| ui := Scenario.browsing; storage := Scenario.empty_store |} in
  let w' := submit Scenario.t0 Threw Scenario.t1 w in
  chatInput (ui w) = "Show promotional emails" /\
  chatInput (ui w') = "" /\
  ui w' <> setChatError (chatError (ui w'))
             (setChatMessages (chatMessages (ui w')) (ui w)) /\
  (let inflight := {| ui := fst (sendChatMessage_begin Scenario.t0 (ui w));
                      storage := storage w |} in
   chatLoading (ui inflight) = true /\
   chatLoading (ui (sendChatMessage_resume (ui w) Threw Scenario.t1 inflight)) = false).
Proof.
  cbv zeta. split; [reflexivity | split; [reflexivity | split]].
  - intros H. apply (f_equal chatInput) in H. discriminate H.
  - split; reflexivity.
Qed.

(** C10 (amended).  A submit of a non-blank utterance with the gate clear
    that ends in failure (rejected call, failure envelope or missing result)
    leaves previews, selection, settings, log and store unchanged.  The final
    state is the initial one with the input buffer cleared, the user message
    and one assistant error message appended, and the error slot set to that
    message; no other cell differs. *)
Theorem failed_submit_frame (clk1 clk2 : Clock) (o : Outcome RandomAgentResponse)
    (w : World) :
  trim_is_empty (chatInput (ui w)) = false ->
  chatLoading (ui w) = false ->
  accepted o = None ->
  let w' := submit clk1 o clk2 w in
  emailPreviews (ui w') = emailPreviews (ui w) /\
  selectedEmails (ui w') = selectedEmails (ui w) /\
  settings (ui w') = settings (ui w) /\
  activityLog (ui w') = activityLog (ui w) /\
  storage w' = storage w /\
  ui w' =
    setChatError (Some (submit_error_text o))
      (setChatMessages
         (chatMessages (ui w) ++
          [ {| msg_id := show_Z (now_ms clk1); role := user;
               content := chatInput (ui w); msg_timestamp := now_iso clk1 |};
            assistantMessage clk2 (submit_error_text o) ])%list
         (setChatInput "" (ui w))).
Proof.
  intros Hin Hgate Hacc. cbv zeta. unfold submit, sendChatMessage_begin.
  rewrite Hin, Hgate. cbn [orb].
  unfold sendChatMessage_resume, submit_error_text, accepted in *.
  destruct o as [| env]; [| destruct (is_success env); [rewrite Hacc |]];
    (do 5 (split; [reflexivity |]);
     apply State_ext; cbn; try reflexivity;
     [now rewrite <- app_assoc | now rewrite Hgate]).
Qed.

Lemma failed_submit_frame_witness :
  let w := {| ui := Scenario.browsing; storage := Scenario.empty_store |} in
  let refusal : Envelope RandomAgentResponse :=
    {| env_success := false; env_error := Some "Agent unavailable";
       response_status := "error"; response_message := None;
       response_result := None |} in
  let w' := submit Scenario.t0 (Resolved refusal) Scenario.t1 w in
  emailPreviews (ui w') = [Scenario.mail "m1"; Scenario.mail "m2"] /\
  selectedEmails (ui w') = ["m1"] /\
  chatError (ui w') = Some "Agent unavailable".
Proof.
  cbv zeta.
  destruct (failed_submit_frame Scenario.t0 Scenario.t1
              (Resolved {| env_success := false; env_error := Some "Agent unavailable";
                           response_status := "error"; response_message := None;
                           response_result := None |})
              {| ui := Scenario.browsing; storage := Scenario.empty_store |}
              eq_refl eq_refl eq_refl) as (Hp & Hs & _ & _ & _ & Hui).
  split; [exact Hp | split; [exact Hs |]].
  now rewrite Hui.
Defined.

(** * Further properties of the page *)

(** ** Blank utterances *)

Lemma trimStart_empty (s : string) : trimStart s = "" <-> trim_is_empty s = true.
Proof.
  induction s as [| a s IH]; cbn; [tauto |].
  destruct (is_white_space a); cbn; [exact IH |]. split; discriminate.
Qed.

Lemma trimStart_head (s : string) (a : Ascii.ascii) (r : string) :
  trimStart s = String a r -> is_white_space a = false.
Proof.
  induction s as [| b s IH]; cbn; [discriminate |].
  destruct (is_white_space b) eqn:E; [exact IH |].
  intros H. injection H as <- _. exact E.
Qed.

Lemma trimEnd_keeps_head (a : Ascii.ascii) (r : string) :
  is_white_space a = false -> trimEnd (String a r) <> "".
Proof.
  intros Ha. cbn. destruct (trimEnd r); [rewrite Ha |]; discriminate.
Qed.

Lemma trim_empty (s : string) : trim s = "" <-> trim_is_empty s = true.
Proof.
  rewrite <- trimStart_empty. unfold trim. split.
  - intros H. destruct (trimStart s) as [| a r] eqn:E; [reflexivity |].
    exfalso. now apply (trimEnd_keeps_head a r (trimStart_head s a r E)).
  - intros ->. reflexivity.
Qed.

(** X1.  [sendChatMessage] ignores an utterance exactly when trimming leaves
    nothing of it: then no state changes and no request is made.  Otherwise,
    with the gate clear, the request carries the text as typed, untrimmed,
    to the interactive agent. *)
Theorem blank_utterance_ignored (clk : Clock) (s : State) :
  (trim (chatInput s) = "" -> sendChatMessage_begin clk s = (s, None)) /\
  (trim (chatInput s) <> "" -> chatLoading s = false ->
   snd (sendChatMessage_begin clk s) =
     Some {| instruction := chatInput s; agent := RANDOM_AGENT_ID |}).
Proof.
  unfold sendChatMessage_begin. split.
  - intros H. apply trim_empty in H. now rewrite H.
  - intros H Hg. destruct (trim_is_empty (chatInput s)) eqn:E.
    + exfalso. apply H. now apply trim_empty.
    + rewrite Hg. reflexivity.
Qed.

Lemma blank_utterance_ignored_witness :
  let blank := setChatInput "   " Scenario.idle in
  let padded := setChatInput "  Show promotional emails " Scenario.idle in
  sendChatMessage_begin Scenario.t0 blank = (blank, None) /\
  snd (sendChatMessage_begin Scenario.t0 padded) =
    Some {| instruction := "  Show promotional emails "; agent := RANDOM_AGENT_ID |}.
Proof.
  cbv zeta. split.
  - apply (blank_utterance_ignored Scenario.t0 (setChatInput "   " Scenario.idle)).
    reflexivity.
  - apply (blank_utterance_ignored Scenario.t0
             (setChatInput "  Show promotional emails " Scenario.idle)).
    + vm_compute. discriminate.
    + reflexivity.
Defined.

(** ** The category badge *)

Lemma toLowerCase_empty (c : string) : toLowerCase c = "" <-> c = "".
Proof. destruct c; cbn; split; (reflexivity || discriminate). Qed.

Lemma includes_empty (needle : string) :
  needle <> "" -> includes needle "" = false.
Proof. destruct needle; [contradiction | reflexivity]. Qed.

(** X2.  The colour of a category badge does not depend on letter case; a
    category that mentions promo is purple whatever else it mentions; and
    the colour is always one of the four classes. *)
Theorem getCategoryColor_spec (c d : string) :
  (toLowerCase c = toLowerCase d ->
   getCategoryColor (Some c) = getCategoryColor (Some d)) /\
  (includes "promo" (toLowerCase c) = true -> getCategoryColor (Some c) = PURPLE) /\
  getCategoryColor (Some c) ∈ [GRAY; PURPLE; BLUE; GREEN].
Proof.
  split; [| split].
  - intros H. unfold getCategoryColor.
    destruct c as [| a c]; destruct d as [| b d]; try discriminate H; [reflexivity |].
    now rewrite H.
  - intros H. unfold getCategoryColor. destruct c as [| a c]; [discriminate H |].
    now rewrite H.
  - unfold getCategoryColor. destruct c as [| a c]; [left |].
    repeat (case_match; [set_solver |]). set_solver.
Qed.

Lemma getCategoryColor_spec_witness :
  getCategoryColor (Some "PROMOTIONS") = getCategoryColor (Some "Promotions") /\
  getCategoryColor (Some "Social promo") = PURPLE.
Proof.
  split.
  - apply (getCategoryColor_spec "PROMOTIONS" "Promotions"). reflexivity.
  - apply (getCategoryColor_spec "Social promo" ""). reflexivity.
Defined.

(** ** Sender initials *)

Lemma split_spaces_no_space (w : string) :
  has_space w = false -> split_spaces w = [w].
Proof.
  induction w as [| a w IH]; cbn; [reflexivity |].
  destruct (Ascii.eqb a " "); [discriminate |]. cbn. intros H. now rewrite IH.
Qed.

Lemma split_spaces_first_word (w t : string) :
  has_space w = false -> split_spaces (w ++ String " " t) = w :: split_spaces t.
Proof.
  induction w as [| a w IH]; intros H; [reflexivity |].
  cbn [has_space] in H. apply orb_false_elim in H as [Ha Hw].
  change (String a w ++ String " " t) with (String a (w ++ String " " t)).
  cbn [split_spaces]. now rewrite Ha, (IH Hw).
Qed.

Lemma split_spaces_head (b : Ascii.ascii) (t : string) :
  Ascii.eqb b " " = false ->
  exists w ws, split_spaces (String b t) = String b w :: ws.
Proof.
  intros Hb. cbn. rewrite Hb. destruct (split_spaces t) as [| w ws]; eauto.
Qed.

(** X3.  The avatar text.  A sender without a space gets its first two
    characters; a sender whose first two words are non-empty gets their first
    characters; a sender that starts with a space has an empty first word,
    and the text of [undefined] takes the place of its first character.
    Everything is passed through [toUpperCase]. *)
Theorem getInitials_spec (toUpperCase : string -> string)
    (a b : Ascii.ascii) (w t : string) :
  (has_space w = false -> getInitials toUpperCase w = toUpperCase (substring_0_2 w)) /\
  (has_space (String a w) = false -> Ascii.eqb b " " = false ->
   getInitials toUpperCase (String a w ++ String " " (String b t)) =
     toUpperCase (String a (String b ""))) /\
  (Ascii.eqb b " " = false ->
   getInitials toUpperCase (String " " (String b t)) =
     toUpperCase ("undefined" ++ String b "")).
Proof.
  split; [| split].
  - intros H. unfold getInitials. now rewrite split_spaces_no_space.
  - intros Hw Hb. unfold getInitials. rewrite split_spaces_first_word by exact Hw.
    destruct (split_spaces_head b t Hb) as (w1 & ws & ->). reflexivity.
  - intros Hb. unfold getInitials.
    change (String " " (String b t)) with ("" ++ String " " (String b t)).
    rewrite (split_spaces_first_word "" (String b t) eq_refl).
    destruct (split_spaces_head b t Hb) as (w1 & ws & ->). reflexivity.
Qed.

(** With the upper-casing of ASCII text: two words, one word, and a sender
    that starts with a space. *)
Lemma getInitials_spec_witness :
  getInitials toUpperCase_ascii "shop News" = "SN" /\
  getInitials toUpperCase_ascii "newsletter" = "NE" /\
  getInitials toUpperCase_ascii " shop" = "UNDEFINEDS".
Proof.
  destruct (getInitials_spec toUpperCase_ascii "s" "N" "hop" "ews") as (_ & H2 & _).
  destruct (getInitials_spec toUpperCase_ascii "s" "s" "newsletter" "hop") as (H1 & _ & H3).
  split; [exact (H2 eq_refl eq_refl) | split; [exact (H1 eq_refl) | exact (H3 eq_refl)]].
Defined.

(** ** The success path of a submit *)

(** X4.  A submit that is accepted: the transcript gains the user message
    and one assistant message with the reply's text, the input is cleared,
    the gate and the error slot end clear, and the batch becomes the reply's
    preview list (empty when the list is absent).  An activity entry is
    recorded exactly when the reply reports a positive number of deletions;
    its label names the category, or [emails] when the category is empty. *)
Theorem submit_accepted (clk1 clk2 : Clock) (w : World)
    (o : Outcome RandomAgentResponse) (data : RandomAgentResponse) :
  trim_is_empty (chatInput (ui w)) = false ->
  chatLoading (ui w) = false ->
  accepted o = Some data ->
  let w' := submit clk1 o clk2 w in
  chatMessages (ui w') =
    (chatMessages (ui w) ++
     [ {| msg_id := show_Z (now_ms clk1); role := user;
          content := chatInput (ui w); msg_timestamp := now_iso clk1 |};
       {| msg_id := show_Z (now_ms clk2 + 1); role := assistant;
          content := message data; msg_timestamp := now_iso clk2 |} ])%list /\
  chatInput (ui w') = "" /\ chatLoading (ui w') = false /\ chatError (ui w') = None /\
  emailPreviews (ui w') = default [] (email_preview data) /\
  ((emails_deleted data <= 0)%Z ->
   activityLog (ui w') = activityLog (ui w) /\ storage w' = storage w) /\
  ((0 < emails_deleted data)%Z ->
   activityLog (ui w') =
     take 50 ({| log_id := show_Z (now_ms clk2); timestamp := now_iso clk2;
                 action := "Chat cleanup: " ++
                           (if String.eqb (criteria_category (criteria_identified data)) ""
                            then "emails"
                            else criteria_category (criteria_identified data));
                 emailsDeleted := emails_deleted data; status := success |}
              :: activityLog (ui w))).
Proof.
  intros Hin Hgate Hacc. cbv zeta. unfold submit, sendChatMessage_begin.
  rewrite Hin, Hgate. cbn [orb]. unfold sendChatMessage_resume, accepted in *.
  destruct o as [| env]; [discriminate |].
  destruct (is_success env); [| discriminate]. rewrite Hacc.
  assert (Hcat : js_or (Some (criteria_category (criteria_identified data))) "emails" =
                 if String.eqb (criteria_category (criteria_identified data)) ""
                 then "emails" else criteria_category (criteria_identified data)).
  { destruct (criteria_category (criteria_identified data)); reflexivity. }
  rewrite Hcat.
  destruct (0 <? emails_deleted data)%Z eqn:Hd;
    [apply Z.ltb_lt in Hd | apply Z.ltb_ge in Hd];
    destruct (email_preview data) as [[| p ps] |]; cbn;
    rewrite <- app_assoc;
    (split; [reflexivity | split; [reflexivity | split; [reflexivity |
      split; [reflexivity | split; [reflexivity | split]]]]]);
    intros Hz; try lia; try (split; reflexivity); reflexivity.
Qed.

(** The scenario of section 8 of the specification: five previews come
    back and nothing was deleted. *)
Lemma submit_accepted_witness :
  let w := {| ui := Scenario.browsing; storage := Scenario.empty_store |} in
  let five := map Scenario.mail ["a"; "b"; "c"; "d"; "e"] in
  let w' := submit Scenario.t0 (Resolved (Scenario.answer five 0)) Scenario.t1 w in
  map role (chatMessages (ui w')) = [user; assistant] /\
  emailPreviews (ui w') = five /\
  activityLog (ui w') = [].
Proof.
  cbv zeta.
  destruct (submit_accepted Scenario.t0 Scenario.t1
              {| ui := Scenario.browsing; storage := Scenario.empty_store |}
              (Resolved (Scenario.answer (map Scenario.mail ["a"; "b"; "c"; "d"; "e"]) 0))
              _ eq_refl eq_refl eq_refl)
    as (Hm & _ & _ & _ & Hp & Hzero & _).
  split; [now rewrite Hm | split; [exact Hp |]].
  exact (proj1 (Hzero ltac:(cbn; lia))).
Defined.

(** ** Agent-level failures *)

(** X5.  A submit answered by a failure envelope shows one text both in the
    error slot and as the assistant message: the envelope's error when it is
    present and not empty, else the response message when it is present and
    not empty, else a fixed default. *)
Theorem submit_failure_text (c : State) (env : Envelope RandomAgentResponse)
    (clk : Clock) (w : World) :
  is_success env = false ->
  let w' := sendChatMessage_resume c (Resolved env) clk w in
  let text :=
    match env_error env, response_message env with
    | Some (String a e), _ => String a e
    | _, Some (String a m) => String a m
    | _, _ => "Failed to process request"
    end in
  chatError (ui w') = Some text /\
  chatMessages (ui w') = (chatMessages (ui w) ++ [assistantMessage clk text])%list.
Proof.
  intros Hfail. cbv zeta. unfold sendChatMessage_resume. rewrite Hfail.
  destruct (env_error env) as [[| a e] |]; destruct (response_message env) as [[| b m] |];
    split; reflexivity.
Qed.

Lemma submit_failure_text_witness :
  let env : Envelope RandomAgentResponse :=
    {| env_success := true; env_error := Some ""; response_status := "error";
       response_message := Some "Mailbox is locked"; response_result := None |} in
  chatError (ui (sendChatMessage_resume Scenario.browsing (Resolved env) Scenario.t1
                   {| ui := Scenario.browsing; storage := Scenario.empty_store |})) =
  Some "Mailbox is locked".
Proof.
  cbv zeta.
  apply (submit_failure_text Scenario.browsing
           {| env_success := true; env_error := Some ""; response_status := "error";
              response_message := Some "Mailbox is locked"; response_result := None |}
           Scenario.t1 {| ui := Scenario.browsing; storage := Scenario.empty_store |}).
  reflexivity.
Defined.

(** X6.  A delete-selected that fails in any way (rejected call, failure
    envelope, missing result) writes nothing to the transcript: the error
    goes to the error slot only, the gate ends clear, and the text is the
    envelope's error or a fixed default; the response message is not used. *)
Theorem deleteSelected_failure (c : State) (o : Outcome RandomAgentResponse)
    (clk : Clock) (w : World) :
  accepted o = None ->
  let w' := deleteSelectedEmails_resume c o clk w in
  chatMessages (ui w') = chatMessages (ui w) /\
  chatError (ui w') = Some (delete_error_text o) /\
  chatLoading (ui w') = false.
Proof.
  intros Hacc. cbv zeta. unfold deleteSelectedEmails_resume, delete_error_text, accepted in *.
  destruct o as [| env]; [repeat split; reflexivity |].
  destruct (is_success env); [rewrite Hacc |]; repeat split; reflexivity.
Qed.

Lemma deleteSelected_failure_witness :
  let env : Envelope RandomAgentResponse :=
    {| env_success := false; env_error := None; response_status := "error";
       response_message := Some "Mailbox is locked"; response_result := None |} in
  let w := {| ui := Scenario.three_of_five; storage := Scenario.empty_store |} in
  chatMessages (ui (deleteSelectedEmails_resume Scenario.three_of_five (Resolved env)
                      Scenario.t1 w)) = [] /\
  chatError (ui (deleteSelectedEmails_resume Scenario.three_of_five (Resolved env)
                   Scenario.t1 w)) = Some "Failed to delete emails".
Proof.
  cbv zeta.
  destruct (deleteSelected_failure Scenario.three_of_five
              (Resolved {| env_success := false; env_error := None;
                           response_status := "error";
                           response_message := Some "Mailbox is locked";
                           response_result := None |})
              Scenario.t1
              {| ui := Scenario.three_of_five; storage := Scenario.empty_store |}
              eq_refl) as (Hm & He & _).
  split; [exact Hm | exact He].
Defined.

(** ** Selecting while a delete is in flight *)

(** X7.  The previews a delete removes are fixed when the button is
    pressed.  Cards toggled while the request is in flight change neither
    what is removed nor the number in the label; when the reply arrives the
    selection is emptied, the ids toggled in the meantime included. *)
Theorem delete_uses_selection_at_call (calls : list string)
    (o : Outcome RandomAgentResponse) (data : RandomAgentResponse)
    (clk : Clock) (w : World) :
  JsSet.size (selectedEmails (ui w)) <> 0 ->
  accepted o = Some data ->
  let sel := selectedEmails (ui w) in
  let sent := fst (deleteSelectedEmails_begin (ui w)) in
  let w' := deleteSelectedEmails_resume (ui w) o clk
              {| ui := toggle_all calls sent; storage := storage w |} in
  emailPreviews (ui w') =
    List.filter (fun e => negb (JsSet.has (email_id e) sel)) (emailPreviews (ui w)) /\
  selectedEmails (ui w') = JsSet.empty /\
  action <$> head (activityLog (ui w')) =
    Some ("Deleted " ++ show_nat (JsSet.size sel) ++ " selected emails").
Proof.
  intros Hne Hacc. cbv zeta. unfold deleteSelectedEmails_begin.
  destruct (JsSet.size (selectedEmails (ui w)) =? 0)%nat eqn:E;
    [apply Nat.eqb_eq in E; contradiction |].
  cbn [fst]. unfold deleteSelectedEmails_resume, accepted in *.
  destruct o as [| env]; [discriminate |].
  destruct (is_success env); [| discriminate]. rewrite Hacc.
  split; [| split; reflexivity].
  cbn. now rewrite toggle_all_previews.
Qed.

Lemma delete_uses_selection_at_call_witness :
  let w := {| ui := Scenario.three_of_five; storage := Scenario.empty_store |} in
  let sent := fst (deleteSelectedEmails_begin (ui w)) in
  let w' := deleteSelectedEmails_resume (ui w) (Resolved (Scenario.answer [] 3)) Scenario.t1
              {| ui := toggle_all ["m2"; "m1"] sent; storage := storage w |} in
  emailPreviews (ui w') = [Scenario.mail "m2"; Scenario.mail "m4"] /\
  selectedEmails (ui w') = [].
Proof.
  cbv zeta.
  destruct (delete_uses_selection_at_call ["m2"; "m1"] (Resolved (Scenario.answer [] 3)) _
              Scenario.t1
              {| ui := Scenario.three_of_five; storage := Scenario.empty_store |}
              ltac:(vm_compute; discriminate) eq_refl) as (Hp & Hs & _).
  split; [exact Hp | exact Hs].
Defined.

(** ** Periodic runs that the agent refuses *)

(** X8.  A failure envelope on the periodic agent: the real run shows the
    envelope's error or [Cleanup failed], records one error entry with count
    0 and stays on the current tab; the dry run shows the envelope's error or
    [Test run failed] and records nothing.  Neither uses the response
    message. *)
Theorem periodic_refused (c : State) (env : Envelope PeriodicResponse)
    (clk : Clock) (w : World) :
  is_success env = false ->
  let wr := runCleanupNow_resume c (Resolved env) clk w in
  let wt := testRunCleanup_resume c (Resolved env) clk w in
  (periodicError (ui wr) = Some (js_or (env_error env) "Cleanup failed") /\
   activityLog (ui wr) =
     take 50 ({| log_id := show_Z (now_ms clk); timestamp := now_iso clk;
                 action := "Scheduled cleanup failed"; emailsDeleted := 0;
                 status := error |} :: activityLog c) /\
   activeTab (ui wr) = activeTab (ui w) /\ periodicLoading (ui wr) = false) /\
  (periodicError (ui wt) = Some (js_or (env_error env) "Test run failed") /\
   activityLog (ui wt) = activityLog (ui w) /\ storage wt = storage w /\
   periodicLoading (ui wt) = false).
Proof.
  intros Hfail. cbv zeta. unfold runCleanupNow_resume, testRunCleanup_resume.
  rewrite Hfail. repeat split; reflexivity.
Qed.

Lemma periodic_refused_witness :
  let env : Envelope PeriodicResponse :=
    {| env_success := true; env_error := None; response_status := "failed";
       response_message := Some "Quota exceeded"; response_result := None |} in
  let w := {| ui := Scenario.idle; storage := Scenario.empty_store |} in
  periodicError (ui (runCleanupNow_resume Scenario.idle (Resolved env) Scenario.t1 w)) =
    Some "Cleanup failed" /\
  activityLog (ui (testRunCleanup_resume Scenario.idle (Resolved env) Scenario.t1 w)) = [].
Proof.
  cbv zeta.
  destruct (periodic_refused Scenario.idle
              {| env_success := true; env_error := None; response_status := "failed";
                 response_message := Some "Quota exceeded"; response_result := None |}
              Scenario.t1 {| ui := Scenario.idle; storage := Scenario.empty_store |}
              eq_refl) as ((He & _) & (_ & Hl & _)).
  split; [exact He | exact Hl].
Defined.

(** ** What the periodic agent is told *)

(** X9.  The instruction of a real run and of a dry run is built from three
    settings only: the two policy switches and the age threshold.  Schedule,
    confirmation and the per-run limit never reach the agent; both requests
    go to the periodic agent, and the dry run differs from the real run. *)
Theorem periodic_request_settings (s1 s2 : State) :
  promotional (settings s1) = promotional (settings s2) ->
  oldEmails (settings s1) = oldEmails (settings s2) ->
  ageThreshold (settings s1) = ageThreshold (settings s2) ->
  snd (runCleanupNow_begin s1) = snd (runCleanupNow_begin s2) /\
  snd (testRunCleanup_begin s1) = snd (testRunCleanup_begin s2) /\
  agent <$> snd (runCleanupNow_begin s1) = Some PERIODIC_AGENT_ID /\
  agent <$> snd (testRunCleanup_begin s1) = Some PERIODIC_AGENT_ID /\
  snd (runCleanupNow_begin s1) <> snd (testRunCleanup_begin s1).
Proof.
  intros Hp Ho Ha. unfold runCleanupNow_begin, testRunCleanup_begin, settingsText.
  cbn [snd]. rewrite Hp, Ho, Ha. repeat split. discriminate.
Qed.

Lemma periodic_request_settings_witness :
  let cautious :=
    setSettings {| promotional := true; oldEmails := true; ageThreshold := 30;
                   scheduleEnabled := true; frequency := daily; scheduleTime := "23:30";
                   requireConfirmation := false; maxEmailsPerRun := 500 |}
                Scenario.browsing in
  snd (runCleanupNow_begin cautious) = snd (runCleanupNow_begin Scenario.idle).
Proof.
  cbv zeta.
  apply (periodic_request_settings
           (setSettings {| promotional := true; oldEmails := true; ageThreshold := 30;
                           scheduleEnabled := true; frequency := daily;
                           scheduleTime := "23:30"; requireConfirmation := false;
                           maxEmailsPerRun := 500 |} Scenario.browsing)
           Scenario.idle); reflexivity.
Defined.

(** ** Who touches which cells *)

(** X10.  The periodic handlers, in both phases and for every outcome, leave
    the chat panel (transcript, input, gate, previews, selection, error) and
    the settings with their saved flag alone.  The chat handlers, in both
    phases and for every outcome, leave the periodic flag and error, the
    settings with their saved flag, and the active tab alone. *)
Theorem handlers_keep_to_their_cells (c s : State)
    (oc : Outcome RandomAgentResponse) (op : Outcome PeriodicResponse)
    (clk : Clock) (w : World) :
  (chat_cells (fst (runCleanupNow_begin s)) = chat_cells s /\
   chat_cells (fst (testRunCleanup_begin s)) = chat_cells s /\
   settings_cells (fst (runCleanupNow_begin s)) = settings_cells s /\
   settings_cells (fst (testRunCleanup_begin s)) = settings_cells s /\
   chat_cells (ui (runCleanupNow_resume c op clk w)) = chat_cells (ui w) /\
   chat_cells (ui (testRunCleanup_resume c op clk w)) = chat_cells (ui w) /\
   settings_cells (ui (runCleanupNow_resume c op clk w)) = settings_cells (ui w) /\
   settings_cells (ui (testRunCleanup_resume c op clk w)) = settings_cells (ui w)) /\
  (periodic_cells (fst (sendChatMessage_begin clk s)) = periodic_cells s /\
   periodic_cells (fst (deleteSelectedEmails_begin s)) = periodic_cells s /\
   settings_cells (fst (sendChatMessage_begin clk s)) = settings_cells s /\
   settings_cells (fst (deleteSelectedEmails_begin s)) = settings_cells s /\
   activeTab (fst (sendChatMessage_begin clk s)) = activeTab s /\
   activeTab (fst (deleteSelectedEmails_begin s)) = activeTab s /\
   periodic_cells (ui (sendChatMessage_resume c oc clk w)) = periodic_cells (ui w) /\
   periodic_cells (ui (deleteSelectedEmails_resume c oc clk w)) = periodic_cells (ui w) /\
   settings_cells (ui (sendChatMessage_resume c oc clk w)) = settings_cells (ui w) /\
   settings_cells (ui (deleteSelectedEmails_resume c oc clk w)) = settings_cells (ui w) /\
   activeTab (ui (sendChatMessage_resume c oc clk w)) = activeTab (ui w) /\
   activeTab (ui (deleteSelectedEmails_resume c oc clk w)) = activeTab (ui w)).
Proof.
  split.
  - repeat split; try reflexivity; settle_cases.
  - unfold sendChatMessage_begin, deleteSelectedEmails_begin.
    repeat split;
      try (destruct (trim_is_empty _ || _); reflexivity);
      try (destruct (_ =? _)%nat; reflexivity);
      settle_cases.
Qed.

(** ** The store *)

Lemma saveActivityLog_flags (logs : list ActivityLog) (st : Storage) :
  readable (saveActivityLog logs st) = readable st /\
  writable (saveActivityLog logs st) = writable st.
Proof.
  unfold saveActivityLog, setItem. destruct (writable st) eqn:E; cbn; auto.
Qed.

Lemma saveActivityLog_other_key (logs : list ActivityLog) (st : Storage) :
  items (saveActivityLog logs st) !! SETTINGS_KEY = items st !! SETTINGS_KEY.
Proof.
  unfold saveActivityLog, setItem. destruct (writable st); [| reflexivity].
  cbn. now apply lookup_insert_ne.
Qed.

Lemma loadActivityLog_after_save (logs : list ActivityLog) (st : Storage) :
  readable st = true -> writable st = true ->
  loadActivityLog (saveActivityLog logs st) = JArr (map ActivityLog_to_json logs).
Proof.
  intros Hr Hw. unfold saveActivityLog, setItem. rewrite Hw.
  unfold loadActivityLog, getItem. cbn [readable items]. rewrite Hr.
  now rewrite lookup_insert_eq.
Qed.

Lemma saveSettings_storage (w : World) :
  readable (storage (saveSettings w)) = readable (storage w) /\
  writable (storage (saveSettings w)) = writable (storage w) /\
  items (storage (saveSettings w)) !! ACTIVITY_KEY = items (storage w) !! ACTIVITY_KEY /\
  activityLog (ui (saveSettings w)) = activityLog (ui w).
Proof.
  unfold saveSettings, setItem. destruct (writable (storage w)) eqn:E; cbn; [| auto].
  repeat split. now apply lookup_insert_ne.
Qed.

Lemma read_show_Status (s : Status) : read_Status (show_Status s) = Some s.
Proof. destruct s; reflexivity. Qed.

Lemma as_entry_to_json (e : ActivityLog) : as_entry (ActivityLog_to_json e) = Some e.
Proof.
  destruct e as [i t a n s]. unfold as_entry, ActivityLog_to_json.
  unfold get_str, get_num. cbn [assoc String.eqb Ascii.eqb Bool.eqb].
  cbn [mbind option_bind]. rewrite read_show_Status. reflexivity.
Qed.

Lemma as_activity_log_to_json (logs : list ActivityLog) :
  as_activity_log (JArr (map ActivityLog_to_json logs)) = Some logs.
Proof.
  unfold as_activity_log. apply mapM_Some. induction logs as [| e logs IH]; cbn.
  - constructor.
  - constructor; [apply as_entry_to_json | exact IH].
Qed.

(** X11.  The stored activity log.  Loading gives the empty list when the
    store cannot be read, has no entry under the key, or holds text that does
    not parse.  On a store that can be read and written, a saved list loads
    back entry for entry; when the write is rejected, loading gives what it
    gave before. *)
Theorem activity_log_round_trip (logs : list ActivityLog) (st : Storage) :
  (readable st = false \/ items st !! ACTIVITY_KEY = None \/
   (exists raw, items st !! ACTIVITY_KEY = Some (Malformed raw)) ->
   loadActivityLog st = JArr []) /\
  (readable st = true -> writable st = true ->
   as_activity_log (loadActivityLog (saveActivityLog logs st)) = Some logs) /\
  (writable st = false ->
   loadActivityLog (saveActivityLog logs st) = loadActivityLog st).
Proof.
  split; [| split].
  - unfold loadActivityLog, getItem.
    intros [-> | [H | [raw H]]]; [reflexivity | |].
    + destruct (readable st); [rewrite H |]; reflexivity.
    + destruct (readable st); [rewrite H |]; [| reflexivity]. destruct raw; reflexivity.
  - intros Hr Hw. rewrite loadActivityLog_after_save by assumption.
    apply as_activity_log_to_json.
  - intros Hw. unfold saveActivityLog, setItem. now rewrite Hw.
Qed.

Lemma activity_log_round_trip_witness :
  let logs := [newLog Scenario.t1 "Scheduled cleanup executed" 17 success;
               newLog Scenario.t0 "Scheduled cleanup failed" 0 error] in
  loadActivityLog Scenario.empty_store = JArr [] /\
  as_activity_log (loadActivityLog (saveActivityLog logs Scenario.empty_store)) = Some logs /\
  loadActivityLog (saveActivityLog logs Scenario.full_store) = JArr [].
Proof.
  cbv zeta.
  destruct (activity_log_round_trip
              [newLog Scenario.t1 "Scheduled cleanup executed" 17 success;
               newLog Scenario.t0 "Scheduled cleanup failed" 0 error]
              Scenario.empty_store) as (Hmiss & Hrt & _).
  destruct (activity_log_round_trip
              [newLog Scenario.t1 "Scheduled cleanup executed" 17 success;
               newLog Scenario.t0 "Scheduled cleanup failed" 0 error]
              Scenario.full_store) as (_ & _ & Hfull).
  split; [exact (Hmiss (or_intror (or_introl eq_refl))) |].
  split; [exact (Hrt eq_refl eq_refl) |].
  rewrite (Hfull eq_refl). reflexivity.
Defined.

(** X12.  The two stored blobs do not interfere: recording an activity
    entry leaves what [loadSettings] returns as it was, and saving the
    settings leaves what [loadActivityLog] returns as it was. *)
Theorem stored_blobs_independent (c : State) (clk : Clock) (act : string) (n : Z)
    (st : Status) (w : World) :
  loadSettings (storage (addActivityLog c clk act n st w)) = loadSettings (storage w) /\
  loadActivityLog (storage (saveSettings w)) = loadActivityLog (storage w).
Proof.
  split.
  - unfold addActivityLog. cbn [storage]. unfold loadSettings, getItem.
    destruct (saveActivityLog_flags (updatedLogs c clk act n st) (storage w)) as [-> _].
    now rewrite saveActivityLog_other_key.
  - destruct (saveSettings_storage w) as (Hr & _ & Hk & _).
    unfold loadActivityLog, getItem. now rewrite Hr, Hk.
Qed.

(** X13.  Saving the settings.  The [saved] flag is raised when the write
    goes through; when the write is rejected nothing changes at all, so a
    flag still raised from an earlier save stays raised.  The settings shown
    are never altered by saving, and the timer lowers the flag again. *)
Theorem saveSettings_flag (w : World) :
  settingsSaved (ui (saveSettings w)) = writable (storage w) || settingsSaved (ui w) /\
  (writable (storage w) = false -> saveSettings w = w) /\
  settings (ui (saveSettings w)) = settings (ui w) /\
  ui (settingsSaved_timeout (saveSettings w)) = setSettingsSaved false (ui w).
Proof.
  unfold saveSettings, setItem. destruct (writable (storage w)) eqn:E; cbn.
  - repeat split. discriminate.
  - repeat split.
Qed.

Lemma saveSettings_flag_witness :
  let raised := {| ui := setSettingsSaved true Scenario.idle;
                   storage := Scenario.full_store |} in
  saveSettings raised = raised /\ settingsSaved (ui (saveSettings raised)) = true.
Proof.
  cbv zeta.
  destruct (saveSettings_flag {| ui := setSettingsSaved true Scenario.idle;
                                 storage := Scenario.full_store |}) as (Hf & Hsame & _).
  split; [exact (Hsame eq_refl) | exact Hf].
Defined.

(** ** Invariants of the running page *)

Lemma updatedLogs_length c clk act n st : length (updatedLogs c clk act n st) <= 50.
Proof. unfold updatedLogs. rewrite length_take. lia. Qed.

Lemma addActivityLog_effect c clk act n st (w0 w : World) :
  activityLog (ui w) = activityLog (ui w0) -> storage w = storage w0 ->
  log_effect w0 (addActivityLog c clk act n st w).
Proof.
  intros _ Hs. right. exists (updatedLogs c clk act n st).
  split; [apply updatedLogs_length |]. unfold addActivityLog. cbn. now rewrite Hs.
Qed.

Ltac log_kept := left; split; reflexivity.
Ltac log_written := first [ log_kept | apply addActivityLog_effect; reflexivity ].

Lemma sendChatMessage_resume_effect c o clk w :
  log_effect w (sendChatMessage_resume c o clk w).
Proof.
  unfold sendChatMessage_resume.
  destruct o as [| env]; [log_kept |].
  destruct (is_success env); [| log_kept].
  destruct (response_result env) as [data |]; [| log_kept].
  destruct (0 <? emails_deleted data)%Z; destruct (email_preview data) as [[| p ps] |];
    try log_kept;
    (right; eexists; split; [apply updatedLogs_length | split; reflexivity]).
Qed.

Lemma deleteSelectedEmails_resume_effect c o clk w :
  log_effect w (deleteSelectedEmails_resume c o clk w).
Proof.
  unfold deleteSelectedEmails_resume.
  destruct o as [| env]; [log_kept |].
  destruct (is_success env); [| log_kept].
  destruct (response_result env) as [data |]; [| log_kept].
  right; eexists; split; [apply updatedLogs_length | split; reflexivity].
Qed.

Lemma runCleanupNow_resume_effect c o clk w :
  log_effect w (runCleanupNow_resume c o clk w).
Proof.
  unfold runCleanupNow_resume, runCleanupNow_failed.
  destruct o as [| env]; [| destruct (is_success env);
                              [destruct (response_result env) as [data |] |]];
    (right; eexists; split; [apply updatedLogs_length | split; reflexivity]).
Qed.

Lemma testRunCleanup_resume_effect c o clk w :
  log_effect w (testRunCleanup_resume c o clk w).
Proof.
  unfold testRunCleanup_resume.
  destruct o as [| env]; [log_kept |].
  destruct (is_success env); [| log_kept].
  destruct (response_result env) as [data |]; [| log_kept].
  right; eexists; split; [apply updatedLogs_length | split; reflexivity].
Qed.

(** Every event either is a save of the settings or has a [log_effect]. *)
Lemma step_effect (x : Session) (e : Event) :
  (e = SaveClick /\ world (step x e) = saveSettings (world x)) \/
  log_effect (world x) (world (step x e)).
Proof.
  destruct x as [[s st] l].
  destruct e as [ctl clk | text | i | | | | s' | tab | n o clk | n o clk];
    cbn [step world inflight ui storage].
  - right. unfold press. destruct (control_disabled ctl s); [log_kept |].
    destruct ctl; cbn [handler_of invoke];
      unfold sendChatMessage_begin, deleteSelectedEmails_begin, runCleanupNow_begin,
        testRunCleanup_begin;
      [ destruct (trim_is_empty _ || _) | destruct (trim_is_empty _ || _)
      | destruct (_ =? _)%nat | | ]; log_kept.
  - right. log_kept.
  - right. destruct (emailPreviews s !! i); log_kept.
  - right. destruct (_ =? _)%nat; [log_kept |]. unfold selectAllEmails, on_ui, render.
    cbn [world ui]. destruct (JsSet.size _ =? _)%nat; log_kept.
  - left. split; reflexivity.
  - right. log_kept.
  - right. log_kept.
  - right. log_kept.
  - right. destruct (l !! n) as [[c | c | c | c] |]; try log_kept; cbn [world].
    + apply sendChatMessage_resume_effect.
    + apply deleteSelectedEmails_resume_effect.
  - right. destruct (l !! n) as [[c | c | c | c] |]; try log_kept; cbn [world].
    + apply runCleanupNow_resume_effect.
    + apply testRunCleanup_resume_effect.
Qed.

(** X14.  Whatever the user does and in whatever order requests overlap and
    settle, the activity log of the page never holds more than 50 entries. *)
Theorem activity_log_bounded (events : list Event) (x : Session) :
  length (activityLog (ui (world x))) <= 50 ->
  length (activityLog (ui (world (run events x)))) <= 50.
Proof.
  revert x. induction events as [| e events IH]; intros x Hx; [exact Hx |].
  apply IH. destruct (step_effect x e) as [[_ ->] | [[-> _] | (logs & Hl & -> & _)]].
  - destruct (saveSettings_storage (world x)) as (_ & _ & _ & ->). exact Hx.
  - exact Hx.
  - exact Hl.
Qed.

Lemma activity_log_bounded_witness :
  length (activityLog (ui (world
    (run [Gesture RunNowButton Scenario.t0;
          PeriodicSettles 0 Threw Scenario.t1;
          Gesture TestRunButton Scenario.t1;
          PeriodicSettles 0 (Resolved (Scenario.report 42 17)) Scenario.t2]
       (start defaultSettings [] Scenario.empty_store))))) <= 50.
Proof.
  apply (activity_log_bounded _ (start defaultSettings [] Scenario.empty_store)).
  cbn. lia.
Defined.

(** X15.  On a store that can be read and written, the stored log and the
    log on the page stay the same list through every sequence of events,
    overlapping requests included: what a reload would read is what the
    dashboard shows. *)
Theorem stored_log_in_sync (events : list Event) (x : Session) :
  readable (storage (world x)) = true ->
  writable (storage (world x)) = true ->
  log_in_sync (world x) ->
  log_in_sync (world (run events x)).
Proof.
  revert x. induction events as [| e events IH]; intros x Hr Hw Hx; [exact Hx |].
  cbn [run fold_left]. fold (run events (step x e)).
  destruct (step_effect x e) as [[_ He] | [[Hl Hs] | (logs & _ & Hl & Hs)]].
  - destruct (saveSettings_storage (world x)) as (Hr' & Hw' & Hk & Hlog).
    apply IH; rewrite He; [congruence | congruence |].
    unfold log_in_sync in *. rewrite Hlog, <- Hx.
    unfold loadActivityLog, getItem. now rewrite Hr', Hk.
  - apply IH; [congruence | congruence |].
    unfold log_in_sync in *. now rewrite Hl, Hs.
  - destruct (saveActivityLog_flags logs (storage (world x))) as [Hr' Hw'].
    apply IH; [congruence | congruence |].
    unfold log_in_sync. rewrite Hl, Hs. now apply loadActivityLog_after_save.
Qed.

Lemma stored_log_in_sync_witness :
  let stored := [newLog Scenario.t0 "Deleted 3 selected emails" 3 success] in
  let x := run [Gesture RunNowButton Scenario.t0;
                Typing "Delete promotions";
                Gesture SendButton Scenario.t0;
                ChatSettles 1 (Resolved (Scenario.answer [] 5)) Scenario.t1;
                PeriodicSettles 0 (Resolved (Scenario.report 42 17)) Scenario.t2]
               (start defaultSettings stored
                  (saveActivityLog stored Scenario.empty_store)) in
  log_in_sync (world x) /\ length (activityLog (ui (world x))) = 2.
Proof.
  cbv zeta. split; [| reflexivity].
  apply (stored_log_in_sync _
           (start defaultSettings
              [newLog Scenario.t0 "Deleted 3 selected emails" 3 success]
              (saveActivityLog [newLog Scenario.t0 "Deleted 3 selected emails" 3 success]
                 Scenario.empty_store)));
    reflexivity.
Defined.

(** X16.  The settings are persisted by the save button only: through any
    sequence of events without a press on it (edits of the draft, chat,
    periodic runs, their replies) loading the settings gives what it gave at
    the start. *)
Theorem settings_persisted_by_save_only (events : list Event) (x : Session) :
  forallb (fun e => negb (is_save e)) events = true ->
  loadSettings (storage (world (run events x))) = loadSettings (storage (world x)).
Proof.
  revert x. induction events as [| e events IH]; intros x Hev; [reflexivity |].
  cbn [forallb] in Hev. apply andb_true_iff in Hev as [He Hev].
  cbn [run fold_left]. fold (run events (step x e)). rewrite (IH _ Hev).
  destruct (step_effect x e) as [[-> _] | [[_ ->] | (logs & _ & _ & ->)]];
    [discriminate He | reflexivity |].
  unfold loadSettings, getItem.
  destruct (saveActivityLog_flags logs (storage (world x))) as [-> _].
  now rewrite saveActivityLog_other_key.
Qed.

Lemma settings_persisted_by_save_only_witness :
  let edited := {| promotional := false; oldEmails := true; ageThreshold := 90;
                   scheduleEnabled := false; frequency := weekly; scheduleTime := "09:00";
                   requireConfirmation := true; maxEmailsPerRun := 100 |} in
  let x := run [SettingsEdit edited; Gesture TestRunButton Scenario.t0;
                PeriodicSettles 0 (Resolved (Scenario.report 42 0)) Scenario.t1]
               (start defaultSettings [] Scenario.empty_store) in
  settings (ui (world x)) = edited /\
  loadSettings (storage (world x)) = CleanupSettings_to_json defaultSettings.
Proof.
  cbv zeta. split; [reflexivity |].
  rewrite (settings_persisted_by_save_only
             [SettingsEdit {| promotional := false; oldEmails := true; ageThreshold := 90;
                              scheduleEnabled := false; frequency := weekly;
                              scheduleTime := "09:00"; requireConfirmation := true;
                              maxEmailsPerRun := 100 |};
              Gesture TestRunButton Scenario.t0;
              PeriodicSettles 0 (Resolved (Scenario.report 42 0)) Scenario.t1]
             (start defaultSettings [] Scenario.empty_store) eq_refl).
  reflexivity.
Defined.

(** ** The transcript only grows *)

Lemma periodic_resume_transcript c (o : Outcome PeriodicResponse) clk w :
  chatMessages (ui (runCleanupNow_resume c o clk w)) = chatMessages (ui w) /\
  chatMessages (ui (testRunCleanup_resume c o clk w)) = chatMessages (ui w).
Proof. split; settle_cases. Qed.

Ltac transcript_grows :=
  first [ reflexivity
        | apply prefix_app_r; reflexivity
        | apply prefix_app_r, prefix_app_r; reflexivity ].

Lemma sendChatMessage_resume_transcript c o clk w :
  chatMessages (ui w) `prefix_of` chatMessages (ui (sendChatMessage_resume c o clk w)).
Proof.
  unfold sendChatMessage_resume.
  destruct o as [| env]; [cbn; transcript_grows |].
  destruct (is_success env); [| cbn; transcript_grows].
  destruct (response_result env) as [data |]; [| cbn; transcript_grows].
  destruct (0 <? emails_deleted data)%Z; destruct (email_preview data) as [[| p ps] |];
    cbn; transcript_grows.
Qed.

Lemma deleteSelectedEmails_resume_transcript c o clk w :
  chatMessages (ui w) `prefix_of` chatMessages (ui (deleteSelectedEmails_resume c o clk w)).
Proof.
  unfold deleteSelectedEmails_resume.
  destruct o as [| env]; [cbn; transcript_grows |].
  destruct (is_success env); [| cbn; transcript_grows].
  destruct (response_result env) as [data |]; cbn; transcript_grows.
Qed.

Lemma step_transcript (x : Session) (e : Event) :
  chatMessages (ui (world x)) `prefix_of` chatMessages (ui (world (step x e))).
Proof.
  destruct x as [[s st] l].
  destruct e as [ctl clk | text | i | | | | s' | tab | n o clk | n o clk];
    cbn [step world inflight ui storage].
  - unfold press. destruct (control_disabled ctl s); [reflexivity |].
    destruct ctl; cbn [handler_of invoke];
      unfold sendChatMessage_begin, deleteSelectedEmails_begin, runCleanupNow_begin,
        testRunCleanup_begin;
      [ destruct (trim_is_empty _ || _) | destruct (trim_is_empty _ || _)
      | destruct (_ =? _)%nat | | ]; cbn; transcript_grows.
  - reflexivity.
  - destruct (emailPreviews s !! i); reflexivity.
  - destruct (_ =? _)%nat; [reflexivity |]. unfold selectAllEmails, on_ui, render.
    cbn [world ui]. destruct (JsSet.size _ =? _)%nat; reflexivity.
  - unfold saveSettings. destruct (setItem _ _ _); reflexivity.
  - reflexivity.
  - reflexivity.
  - reflexivity.
  - destruct (l !! n) as [[c | c | c | c] |]; try reflexivity; cbn [world].
    + apply sendChatMessage_resume_transcript.
    + apply deleteSelectedEmails_resume_transcript.
  - destruct (l !! n) as [[c | c | c | c] |]; try reflexivity; cbn [world].
    + now rewrite (proj1 (periodic_resume_transcript c o clk {| ui := s; storage := st |})).
    + now rewrite (proj2 (periodic_resume_transcript c o clk {| ui := s; storage := st |})).
Qed.

(** X17.  The transcript is append-only: through every sequence of events
    the messages present at any moment stay where they are, in order and
    unaltered, and later messages are added after them. *)
Theorem transcript_append_only (events : list Event) (x : Session) :
  chatMessages (ui (world x)) `prefix_of` chatMessages (ui (world (run events x))).
Proof.
  revert x. induction events as [| e events IH]; intros x; [reflexivity |].
  cbn [run fold_left]. fold (run events (step x e)).
  etransitivity; [apply step_transcript | apply IH].
Qed.

(** ** The dashboard figures *)

Lemma sum_from (logs : list ActivityLog) (a : Z) :
  fold_left (fun sum log => (sum + emailsDeleted log)%Z) logs a =
  (a + fold_left (fun sum log => (sum + emailsDeleted log)%Z) logs 0)%Z.
Proof.
  revert a. induction logs as [| e logs IH]; intros a; cbn [fold_left]; [lia |].
  rewrite IH, (IH (0 + emailsDeleted e)%Z). lia.
Qed.

Lemma cleaned_since_cons parse cutoff (e : ActivityLog) (logs : list ActivityLog) :
  cleaned_since parse cutoff (e :: logs) =
  ((if counted_since parse cutoff e then emailsDeleted e else 0) +
   cleaned_since parse cutoff logs)%Z.
Proof.
  unfold cleaned_since. cbn [List.filter].
  destruct (counted_since parse cutoff e); [| lia].
  cbn [fold_left]. now rewrite sum_from.
Qed.

Lemma counted_since_earlier parse (early late : Z) (e : ActivityLog) :
  (early <= late)%Z ->
  counted_since parse late e = true -> counted_since parse early e = true.
Proof.
  unfold counted_since. intros Hle. destruct (parse (timestamp e)) as [t |]; cbn; [| easy].
  rewrite !andb_true_iff, !Z.leb_le. intros [H1 H2]. split; [lia | exact H2].
Qed.

Lemma counted_since_success parse cutoff (e : ActivityLog) :
  counted_since parse cutoff e = true -> status e = success.
Proof.
  unfold counted_since. rewrite andb_true_iff. intros [_ H].
  now apply bool_decide_eq_true in H.
Qed.

(** X18.  When no successful entry carries a negative count, the figure for
    the week is never negative and never exceeds the figure for the month.
    Entries with status error count in neither figure, whatever their count. *)
Theorem dashboard_week_within_month (parse : string -> option Z) (now : Z)
    (logs : list ActivityLog) :
  (forall e, e ∈ logs -> status e = success -> (0 <= emailsDeleted e)%Z) ->
  (0 <= weekCount parse now logs <= monthCount parse now logs)%Z /\
  weekCount parse now logs =
    weekCount parse now (List.filter (fun e => bool_decide (status e = success)) logs) /\
  monthCount parse now logs =
    monthCount parse now (List.filter (fun e => bool_decide (status e = success)) logs).
Proof.
  unfold weekCount, monthCount. intros Hpos. split; [| split].
  - induction logs as [| e logs IH]; [cbn; lia |].
    rewrite !cleaned_since_cons.
    assert (IH' : (0 <= cleaned_since parse (now - WEEK_MS) logs
                     <= cleaned_since parse (now - MONTH_MS) logs)%Z).
    { apply IH. intros e' He'. apply Hpos. now right. }
    destruct (counted_since parse (now - WEEK_MS) e) eqn:Ew.
    + rewrite (counted_since_earlier parse (now - MONTH_MS) (now - WEEK_MS) e) by
        (unfold WEEK_MS, MONTH_MS; lia || exact Ew).
      assert (0 <= emailsDeleted e)%Z
        by (apply Hpos; [left | now apply counted_since_success in Ew]).
      lia.
    + destruct (counted_since parse (now - MONTH_MS) e) eqn:Em; [| lia].
      assert (0 <= emailsDeleted e)%Z
        by (apply Hpos; [left | now apply counted_since_success in Em]).
      lia.
  - clear Hpos. induction logs as [| e logs IH]; [reflexivity |].
    cbn [List.filter]. destruct (bool_decide (status e = success)) eqn:Es.
    + rewrite !cleaned_since_cons. now rewrite IH.
    + rewrite cleaned_since_cons, IH. unfold counted_since. rewrite Es, andb_false_r. lia.
  - clear Hpos. induction logs as [| e logs IH]; [reflexivity |].
    cbn [List.filter]. destruct (bool_decide (status e = success)) eqn:Es.
    + rewrite !cleaned_since_cons. now rewrite IH.
    + rewrite cleaned_since_cons, IH. unfold counted_since. rewrite Es, andb_false_r. lia.
Qed.

Lemma dashboard_week_within_month_witness :
  let parse := fun t : string =>
    if String.eqb t (now_iso Scenario.t1) then Some (now_ms Scenario.t1)
    else if String.eqb t "2023-10-31T08:00:00.000Z" then Some 1698739200000%Z
    else None in
  let logs := [newLog Scenario.t1 "Scheduled cleanup executed" 17 success;
               {| log_id := "1698739200000"; timestamp := "2023-10-31T08:00:00.000Z";
                  action := "Deleted 3 selected emails"; emailsDeleted := 3;
                  status := success |}] in
  weekCount parse (now_ms Scenario.t2) logs = 17%Z /\
  monthCount parse (now_ms Scenario.t2) logs = 20%Z /\
  (0 <= weekCount parse (now_ms Scenario.t2) logs
     <= monthCount parse (now_ms Scenario.t2) logs)%Z.
Proof.
  cbv zeta. split; [reflexivity | split; [reflexivity |]].
  apply dashboard_week_within_month.
  intros e He _. repeat (apply elem_of_cons in He as [-> | He]; [cbn; lia |]).
  now apply elem_of_nil in He.
Defined.



(** ** Select all, then delete *)

Lemma of_list_nil (l : list string) : JsSet.of_list l = [] -> l = [].
Proof.
  intros H. destruct l as [| x l]; [reflexivity |].
  assert (Hx : x ∈ JsSet.of_list (x :: l)) by (apply elem_of_of_list; left).
  rewrite H in Hx. now apply elem_of_nil in Hx.
Qed.

Lemma filter_all_selected (l : list EmailPreview) (sel : JsSet.t) :
  (forall e, e ∈ l -> email_id e ∈ sel) ->
  List.filter (fun e => negb (JsSet.has (email_id e) sel)) l = [].
Proof.
  induction l as [| e l IH]; intros H; [reflexivity |].
  cbn [List.filter]. assert (He : JsSet.has (email_id e) sel = true).
  { apply has_true, H. left. }
  rewrite He. cbn [negb]. apply IH. intros e' He'. apply H. now right.
Qed.

(** X20.  Select-all followed by an accepted delete empties the preview
    batch, whenever the first press selects (the selection size differed
    from the batch size), also when several previews share an id. *)
Theorem select_all_then_delete (o : Outcome RandomAgentResponse)
    (data : RandomAgentResponse) (clk : Clock) (w : World) :
  JsSet.size (selectedEmails (ui w)) <> length (emailPreviews (ui w)) ->
  accepted o = Some data ->
  emailPreviews (ui (deleteSelected o clk (render selectAllEmails w))) = [].
Proof.
  intros Hne Hacc. apply Nat.eqb_neq in Hne.
  unfold deleteSelected, render. cbn [ui storage].
  unfold selectAllEmails. rewrite Hne. unfold deleteSelectedEmails_begin.
  cbn [selectedEmails setSelectedEmails].
  destruct (JsSet.size (JsSet.of_list (map email_id (emailPreviews (ui w)))) =? 0)%nat
    eqn:E.
  - apply Nat.eqb_eq in E. apply length_zero_iff_nil, of_list_nil in E.
    cbn [ui emailPreviews setSelectedEmails]. now apply map_eq_nil in E.
  - unfold deleteSelectedEmails_resume, accepted in *.
    destruct o as [| env]; [discriminate |].
    destruct (is_success env); [| discriminate]. rewrite Hacc. cbn.
    apply filter_all_selected. intros e He.
    apply elem_of_of_list, list_elem_of_fmap. now exists e.
Qed.

Lemma select_all_then_delete_witness :
  let twins := setEmailPreviews [Scenario.mail "m1"; Scenario.mail "m1"; Scenario.mail "m2"]
                 Scenario.idle in
  emailPreviews (ui (deleteSelected (Resolved (Scenario.answer [] 3)) Scenario.t1
                       (render selectAllEmails
                          {| ui := twins; storage := Scenario.empty_store |}))) = [].
Proof.
  cbv zeta.
  eapply (select_all_then_delete (Resolved (Scenario.answer [] 3)) _ Scenario.t1
           {| ui := setEmailPreviews
                      [Scenario.mail "m1"; Scenario.mail "m1"; Scenario.mail "m2"]
                      Scenario.idle;
              storage := Scenario.empty_store |}).
  - vm_compute. discriminate.
  - reflexivity.
Defined.

(** ** Gates are always released *)

(** X21.  Whatever the outcome (accepted reply, failure envelope, missing
    result, rejected call), a request that settles clears the gate of its own
    kind and leaves the other gate as it is. *)
Theorem gate_released (c : State) (oc : Outcome RandomAgentResponse)
    (op : Outcome PeriodicResponse) (clk : Clock) (w : World) :
  (chatLoading (ui (sendChatMessage_resume c oc clk w)) = false /\
   chatLoading (ui (deleteSelectedEmails_resume c oc clk w)) = false /\
   periodicLoading (ui (runCleanupNow_resume c op clk w)) = false /\
   periodicLoading (ui (testRunCleanup_resume c op clk w)) = false) /\
  (periodicLoading (ui (sendChatMessage_resume c oc clk w)) = periodicLoading (ui w) /\
   periodicLoading (ui (deleteSelectedEmails_resume c oc clk w)) = periodicLoading (ui w) /\
   chatLoading (ui (runCleanupNow_resume c op clk w)) = chatLoading (ui w) /\
   chatLoading (ui (testRunCleanup_resume c op clk w)) = chatLoading (ui w)).
Proof.
  destruct (sendChatMessage_resume_flags c oc clk w) as [H1 H2].
  destruct (deleteSelectedEmails_resume_flags c oc clk w) as [H3 H4].
  destruct (runCleanupNow_resume_flags c op clk w) as [H5 H6].
  destruct (testRunCleanup_resume_flags c op clk w) as [H7 H8].
  repeat split; assumption.
Qed.

(** ** Toggling cards *)

(** X22.  After any sequence of toggles an id is selected exactly when it
    was selected before and toggled an even number of times, or was not
    selected and toggled an odd number of times.  The preview batch is not
    touched, and when every toggled id belongs to the batch, a selection
    inside the batch stays inside it. *)
Theorem toggles_flip_membership (calls : list string) (s : State) (x : string) :
  JsSet.has x (selectedEmails (toggle_all calls s)) =
    xorb (JsSet.has x (selectedEmails s)) (Nat.odd (toggles_of x calls)) /\
  emailPreviews (toggle_all calls s) = emailPreviews s /\
  (selection_within_batch s -> (forall y, y ∈ calls -> y ∈ preview_ids s) ->
   selection_within_batch (toggle_all calls s)).
Proof.
  split; [apply toggle_parity | split; [apply toggle_all_previews |]].
  apply toggle_all_within_batch.
Qed.

Lemma toggles_flip_membership_witness :
  selectedEmails (toggle_all ["m2"; "m1"; "m2"; "m2"] Scenario.browsing) = ["m2"] /\
  selection_within_batch (toggle_all ["m2"; "m1"; "m2"; "m2"] Scenario.browsing).
Proof.
  split; [reflexivity |].
  apply (toggles_flip_membership ["m2"; "m1"; "m2"; "m2"] Scenario.browsing "m1").
  - intros y Hy. apply list_elem_of_singleton in Hy as ->. cbn. left.
  - intros y Hy. cbn.
    repeat (apply elem_of_cons in Hy as [-> | Hy]; [set_solver |]).
    now apply elem_of_nil in Hy.
Defined.

(** ** The selection on the running page *)

(** X23.  Through every sequence of events in which no reply to a submit
    empties the preview batch, every selected id is the id of a preview on
    display: card clicks, select-all, deletes with any reply, submit replies
    that bring previews, failures, periodic runs and overlapping requests all
    keep it so. *)
Theorem selection_stays_within_batch (events : list Event) (x : Session) :
  never_empties_batch events x = true ->
  selection_within_batch (ui (world x)) ->
  selection_within_batch (ui (world (run events x))).
Proof.
  revert x. induction events as [| e events IH]; intros x Hev Hx; [exact Hx |].
  cbn [never_empties_batch] in Hev. apply andb_true_iff in Hev as [He Hev].
  cbn [run fold_left]. fold (run events (step x e)). apply IH; [exact Hev |].
  apply step_keeps_selection_within_batch; [exact Hx |].
  intros n o clk c -> Hn. cbn [empties_batch] in He. rewrite Hn in He.
  now apply negb_true_iff in He.
Qed.

(** Five previews arrive, two are picked, select-all takes the rest, and the
    delete is answered by a reply without previews while a card is toggled
    in between. *)
Lemma selection_stays_within_batch_witness :
  let five := map Scenario.mail ["a"; "b"; "c"; "d"; "e"] in
  let x := run [Typing "Show promotional emails";
                Gesture SendButton Scenario.t0;
                ChatSettles 0 (Resolved (Scenario.answer five 0)) Scenario.t1;
                CardClick 1; CardClick 3; SelectAllClick;
                Gesture DeleteButton Scenario.t1;
                CardClick 0;
                ChatSettles 0 (Resolved (Scenario.answer [] 5)) Scenario.t2]
               (start defaultSettings [] Scenario.empty_store) in
  selection_within_batch (ui (world x)) /\ emailPreviews (ui (world x)) = [].
Proof.
  cbv zeta. split; [| reflexivity].
  apply (selection_stays_within_batch
           [Typing "Show promotional emails";
            Gesture SendButton Scenario.t0;
            ChatSettles 0 (Resolved (Scenario.answer
                                       (map Scenario.mail ["a"; "b"; "c"; "d"; "e"]) 0))
              Scenario.t1;
            CardClick 1; CardClick 3; SelectAllClick;
            Gesture DeleteButton Scenario.t1;
            CardClick 0;
            ChatSettles 0 (Resolved (Scenario.answer [] 5)) Scenario.t2]
           (start defaultSettings [] Scenario.empty_store)).
  - vm_compute. reflexivity.
  - intros y Hy. now apply elem_of_nil in Hy.
Defined.
